(** * strava_login: the access-token lifecycle of app.js

    A shallow embedding of [src/app.js]: an Express gateway that keeps one
    OAuth token triple in the MySQL table [strava_auth] and forwards six
    routes to the Strava API with a bearer header.

    The asynchronous functions of the source are embedded in a small free
    monad [prog]: a program is a finite tree whose nodes are the effects the
    source performs (clock reads, logging, the response object, the MySQL
    pool, axios) and whose leaves are a returned value or a thrown error.
    One interpreter, [run], executes a request to completion against a
    [world] (the table and the trace of effects) and an [env] (how the
    outside answers during that request); a second one, [turn], executes a
    request from one [await] to the next, so that several requests can be
    interleaved over the same table. *)

From Stdlib Require Import ZArith List String Bool Lia.
Import ListNotations.

Local Open Scope string_scope.
Local Open Scope Z_scope.

(** ** Values *)

(** JSON-like JavaScript values: request bodies, upstream response bodies and
    the bodies sent to the client.  Numbers are modelled by integers. *)
#[local] Unset Elimination Schemes.
Inductive js_value : Type :=
| JUndefined
| JNull
| JBool (b : bool)
| JNum (n : Z)
| JStr (s : string)
| JArr (items : list js_value)
| JObj (fields : list (string * js_value)).
#[local] Set Elimination Schemes.

(** What the [expires_at] column (and the upstream's [expires_at] field) can
    hold, as the MySQL driver hands it to JavaScript: NULL, a number, a
    string, or a [Date] object whose time value is [None] when invalid.
    In the answer of the token endpoint [CNull] is a [null] or an absent
    [expires_at]: the driver writes NULL for either. *)
Inductive column_value : Type :=
| CNull
| CNum (n : Z)
| CStr (s : string)
| CDate (t : option Z).

(** A token as JavaScript holds it: text when it is there, [undefined]
    when the property is absent (a field the token endpoint did not send,
    [req.accessToken] before the middleware has assigned it), [null] for a
    JSON null or an SQL NULL. *)
Inductive js_text : Type :=
| Undefined
| Null
| Text (s : string).

(** [`${v}`]: the value spliced into a template literal. *)
Definition to_string (v : js_text) : string :=
  match v with
  | Undefined => "undefined"
  | Null => "null"
  | Text s => s
  end.

(** A token column holds text or NULL ([None]).  The driver hands NULL to
    JavaScript as [null], and writes NULL for a parameter that is
    [undefined] or [null]. *)
Definition of_column (c : option string) : js_text :=
  match c with
  | None => Null
  | Some s => Text s
  end.

Definition to_column (v : js_text) : option string :=
  match v with
  | Text s => Some s
  | _ => None
  end.

(** The exceptions that can occur: the [err] of [pool.getConnection], the
    [error] of [connection.query], a rejected axios promise (no response at
    all, or a response whose status is outside 2xx), and the [TypeError] of
    destructuring [undefined] or [null]. *)
Inductive js_error : Type :=
| PoolError (code : string)
| QueryError (code : string)
| AxiosError (status : option Z)
| TypeError (msg : string).

Fixpoint assoc (k : string) (fs : list (string * js_value)) : js_value :=
  match fs with
  | [] => JUndefined
  | (k', v) :: rest => if String.eqb k k' then v else assoc k rest
  end.

(** [v.k] for a value that is neither [undefined] nor [null]. *)
Definition prop (v : js_value) (k : string) : js_value :=
  match v with
  | JObj fs => assoc k fs
  | _ => JUndefined
  end.

(** [const { ... } = v] throws exactly when [v] is [undefined] or [null]. *)
Definition destructurable (v : js_value) : bool :=
  match v with
  | JUndefined | JNull => false
  | _ => true
  end.

(** ** The table strava_auth and the two statements the source issues *)

Record row : Type := {
  id : Z;
  access_token : option string;
  refresh_token : option string;
  expires_at : column_value
}.

(** [SelectAuth] is 'SELECT * FROM strava_auth WHERE id = 1';
    [UpdateAuth a r e] is 'UPDATE strava_auth SET access_token = ?,
    refresh_token = ?, expires_at = ? WHERE id = 1' with the parameters
    [[a, r, e]]. *)
Inductive sql : Type :=
| SelectAuth
| UpdateAuth (a r : js_text) (e : column_value).

(** The [results] of [connection.query]: the rows of a SELECT, or the
    packet that acknowledges an UPDATE. *)
Inductive query_results : Type :=
| RowData (rows : list row)
| OkPacket (affectedRows : nat).

Definition is_id1 (r : row) : bool := id r =? 1.

Definition set_triple (a rt : js_text) (e : column_value) (r : row) : row :=
  if is_id1 r
  then {| id := id r; access_token := to_column a;
          refresh_token := to_column rt; expires_at := e |}
  else r.

Definition exec_sql (q : sql) (tbl : list row) : list row * query_results :=
  match q with
  | SelectAuth => (tbl, RowData (filter is_id1 tbl))
  | UpdateAuth a rt e =>
      (map (set_triple a rt e) tbl, OkPacket (List.length (filter is_id1 tbl)))
  end.

(** [results[0]] *)
Definition first_row (results : query_results) : option row :=
  match results with
  | RowData rows => nth_error rows 0
  | OkPacket _ => None
  end.

(** ** Effects *)

Inductive method : Type := GET | POST | PUT.

(** The JSON object posted to the token endpoint. *)
Record token_request : Type := {
  client_id : string;
  client_secret : string;
  grant_type : string;
  rq_refresh_token : string
}.

(** [response.data] of the token endpoint, as far as the source reads it:
    the three properties it destructures, each of which may be absent. *)
Record token_response : Type := {
  rs_access_token : js_text;
  rs_refresh_token : js_text;
  rs_expires_at : column_value
}.

(** The effects of the source.  The last four are awaited (the function
    yields until the answer arrives); the others are synchronous.
    [PoolGetConnection] carries the statement the connection is obtained
    for, so that an environment can fail each acquisition on its own.
    The token endpoint answers with an error (no response, or a status
    outside 2xx) or with [response.data]: [None] when that is [null] or
    [undefined], and otherwise the properties it has. *)
Inductive io : Type -> Type :=
| DateNow : io Z
| ConsoleError (msg : string) (err : js_error) : io unit
| ResJson (status : Z) (body : js_value) : io unit
| ConnectionRelease : io unit
| PoolGetConnection (q : sql) : io (option js_error)
| ConnectionQuery (q : sql) : io (js_error + query_results)
| AxiosPostToken (url : string) (data : token_request)
    : io (js_error + option token_response)
| AxiosRequest (m : method) (url : string) (data : option js_value)
    (authorization : string) : io (js_error + js_value).

Definition is_await {T} (op : io T) : bool :=
  match op with
  | PoolGetConnection _ | ConnectionQuery _
  | AxiosPostToken _ _ | AxiosRequest _ _ _ _ => true
  | _ => false
  end.

(** An effect that was performed, with the answer it received. *)
Inductive event : Type :=
| Event {T : Type} (op : io T) (x : T).

(** ** Programs *)

Inductive prog (A : Type) : Type :=
| Ret (a : A)
| Throw (err : js_error)
| Vis {T : Type} (op : io T) (k : T -> prog A).

Arguments Ret {A} a.
Arguments Throw {A} err.
Arguments Vis {A T} op k.

Fixpoint bind {A B} (p : prog A) (f : A -> prog B) : prog B :=
  match p with
  | Ret a => f a
  | Throw err => Throw err
  | Vis op k => Vis op (fun x => bind (k x) f)
  end.

(** [try { p } catch (error) { h error }] *)
Fixpoint try_catch {A} (p : prog A) (h : js_error -> prog A) : prog A :=
  match p with
  | Ret a => Ret a
  | Throw err => h err
  | Vis op k => Vis op (fun x => try_catch (k x) h)
  end.

Definition perform {T} (op : io T) : prog T := Vis op Ret.

(** [await promise]: the value the promise resolves to, or its rejection
    thrown. *)
Definition await {T} (op : io (js_error + T)) : prog T :=
  Vis op (fun r => match r with inl err => Throw err | inr v => Ret v end).

Declare Scope prog_scope.
Delimit Scope prog_scope with prog.
Notation "x <- p ;; q" := (bind p (fun x => q))
  (at level 61, p at next level, right associativity) : prog_scope.
Notation "p ;; q" := (bind p (fun _ => q))
  (at level 61, right associativity) : prog_scope.
Local Open Scope prog_scope.

(** ** The outside world *)

(** How the outside answers while one request is served. *)
Record env : Type := {
  clock : Z;
  getConnection_err : sql -> option js_error;
  query_err : sql -> option js_error;
  token_endpoint :
    string -> token_request -> js_error + option token_response;
  api_endpoint :
    method -> string -> option js_value -> string -> js_error + js_value
}.

Record world : Type := {
  table : list row;
  trace : list event
}.

(** The answer to an effect and what it does to the table.  Only a
    statement that succeeds touches the table; one that fails changes
    nothing. *)
Definition answer (e : env) (tbl : list row) {T} (op : io T) : list row * T :=
  match op in io T return list row * T with
  | DateNow => (tbl, clock e)
  | ConsoleError _ _ => (tbl, tt)
  | ResJson _ _ => (tbl, tt)
  | ConnectionRelease => (tbl, tt)
  | PoolGetConnection q => (tbl, getConnection_err e q)
  | ConnectionQuery q =>
      match query_err e q with
      | Some err => (tbl, inl err)
      | None => let '(tbl', res) := exec_sql q tbl in (tbl', inr res)
      end
  | AxiosPostToken url data => (tbl, token_endpoint e url data)
  | AxiosRequest m url data auth => (tbl, api_endpoint e m url data auth)
  end.

Definition step (e : env) {T} (op : io T) (w : world) : world * T :=
  let '(tbl, x) := answer e (table w) op in
  ({| table := tbl; trace := (trace w ++ [Event op x])%list |}, x).

(** A request served to completion. *)
Fixpoint run {A} (e : env) (p : prog A) (w : world) : world * (js_error + A) :=
  match p with
  | Ret a => (w, inr a)
  | Throw err => (w, inl err)
  | Vis op k => let '(w', x) := step e op w in run e (k x) w'
  end.

(** ** Requests in flight together

    Node runs one function at a time and switches between requests only
    at an [await].  A turn of a request lets its pending awaited effect take
    place and then runs the request through its synchronous effects up to
    its next [await]. *)

Fixpoint flush {A} (e : env) (p : prog A) (w : world) : world * prog A :=
  match p with
  | Vis op k =>
      if is_await op then (w, p)
      else let '(w', x) := step e op w in flush e (k x) w'
  | _ => (w, p)
  end.

Definition turn {A} (e : env) (p : prog A) (w : world) : world * prog A :=
  match flush e p w with
  | (w1, Vis op k) => let '(w2, x) := step e op w1 in flush e (k x) w2
  | (w1, p1) => (w1, p1)
  end.

(** A request in flight: its environment, what is left of its program and
    the effects it has performed so far.  The table is shared. *)
Record task : Type := {
  t_env : env;
  t_prog : prog unit;
  t_trace : list event
}.

Definition new_task (p : prog unit) (e : env) : task :=
  {| t_env := e; t_prog := p; t_trace := [] |}.

Definition turn_task (t : task) (tbl : list row) : task * list row :=
  let '(w, p) := turn (t_env t) (t_prog t)
                   {| table := tbl; trace := t_trace t |} in
  ({| t_env := t_env t; t_prog := p; t_trace := trace w |}, table w).

(** The [i]-th request takes a turn. *)
Fixpoint turn_nth (i : nat) (ts : list task) (tbl : list row)
  : list task * list row :=
  match ts, i with
  | [], _ => ([], tbl)
  | t :: rest, O => let '(t', tbl') := turn_task t tbl in (t' :: rest, tbl')
  | t :: rest, S j =>
      let '(rest', tbl') := turn_nth j rest tbl in (t :: rest', tbl')
  end.

(** A schedule names the request that takes each successive turn. *)
Fixpoint run_schedule (s : list nat) (ts : list task) (tbl : list row)
  : list task * list row :=
  match s with
  | [] => (ts, tbl)
  | i :: s' => let '(ts', tbl') := turn_nth i ts tbl in run_schedule s' ts' tbl'
  end.

(** [k] rounds in which each of [n] requests takes one turn, in order. *)
Definition lockstep (n k : nat) : list nat :=
  List.concat (repeat (seq 0 n) k).

(** ** Dates *)

Definition TimeClip (t : Z) : option Z :=
  if Z.abs t <=? 8640000000000000 then Some t else None.

(** [config.strava], as far as app.js reads it. *)
Record Config : Type := {
  strava_clientId : string;
  strava_clientSecret : string;
  strava_accessToken : string
}.

Section App.

(** [config.js] is not part of the sources: its contents are a parameter,
    and so is [Date.parse], which the language leaves to the
    implementation. *)
Variable config : Config.
Variable Date_parse : string -> option Z.

(** [new Date(v).getTime()], [None] standing for NaN. *)
Definition Date_getTime (v : column_value) : option Z :=
  match v with
  | CNull => Some 0
  | CNum n => TimeClip n
  | CStr s => Date_parse s
  | CDate t => t
  end.

(** [now > new Date(v).getTime() - 60000]; a comparison with NaN is false. *)
Definition expired_or_soon (now : Z) (v : column_value) : bool :=
  match Date_getTime v with
  | Some t => now >? t - 60000
  | None => false
  end.

Arguments expired_or_soon : simpl never.

(** ** app.js *)

Definition stravaApiBaseUrl : string := "https://www.strava.com/api/v3".
Definition authBaseUrl : string := "https://www.strava.com/oauth".

Definition executeQuery (query : sql) : prog query_results :=
  Vis (PoolGetConnection query) (fun err =>
    match err with
    | Some e => Throw e
    | None =>
        Vis (ConnectionQuery query) (fun r =>
          Vis ConnectionRelease (fun _ =>
            match r with
            | inl error => Throw error
            | inr results => Ret results
            end))
    end).

Definition authenticateWithStrava : prog js_text :=
  try_catch
    (response <- await (AxiosPostToken (authBaseUrl ++ "/token")
                   {| client_id := strava_clientId config;
                      client_secret := strava_clientSecret config;
                      grant_type := "refresh_token";
                      rq_refresh_token := strava_accessToken config |}) ;;
     match response with
     | None =>
         Throw (TypeError "Cannot destructure property 'access_token'")
     | Some data =>
         executeQuery (UpdateAuth (rs_access_token data)
                         (rs_refresh_token data) (rs_expires_at data)) ;;
         Ret (rs_access_token data)
     end)
    (fun error =>
       perform (ConsoleError "Error authenticating with Strava:" error) ;;
       Throw error).

Record request : Type := {
  params_id : string;
  body : js_value;
  accessToken : js_text
}.

(** [req.accessToken = t] *)
Definition set_accessToken (req : request) (t : js_text) : request :=
  {| params_id := params_id req; body := body req; accessToken := t |}.

Definition internal_server_error : js_value :=
  JObj [("error", JStr "Internal Server Error")].

(** The [catch] block of the middleware.  The call [next()] stands inside
    the [try] block, as in the source; the handlers it starts never throw
    (each has a catch-all of its own, see [handler_answers]), so the block
    only ever catches what the middleware itself throws. *)
Definition ensureAccessToken_catch (error : js_error) : prog unit :=
  perform (ResJson 500 internal_server_error).

Definition ensureAccessToken (req : request) (next : request -> prog unit)
  : prog unit :=
  try_catch
    (results <- executeQuery SelectAuth ;;
     match first_row results with
     | None => Throw (TypeError "Cannot destructure property 'access_token'")
     | Some r =>
         now <- perform DateNow ;;
         req' <- (if expired_or_soon now (expires_at r)
                  then t <- authenticateWithStrava ;;
                       Ret (set_accessToken req t)
                  else Ret (set_accessToken req (of_column (access_token r)))) ;;
         next req'
     end)
    ensureAccessToken_catch.

(** [`Bearer ${req.accessToken}`] *)
Definition bearer (req : request) : string :=
  "Bearer " ++ to_string (accessToken req).

(** [const { ... } = v]: the value whose properties are then read. *)
Definition destructure (v : js_value) : prog js_value :=
  if destructurable v then Ret v
  else Throw (TypeError "Cannot destructure property of undefined or null").

(** The [catch] block of a route handler, with its log message. *)
Definition handler_catch (msg : string) (error : js_error) : prog unit :=
  perform (ConsoleError msg error) ;;
  perform (ResJson 500 internal_server_error).

Definition get_athlete (req : request) : prog unit :=
  try_catch
    (data <- await (AxiosRequest GET (stravaApiBaseUrl ++ "/athlete") None
                      (bearer req)) ;;
     perform (ResJson 200 data))
    (handler_catch "Error retrieving athlete:").

Definition post_activities (req : request) : prog unit :=
  try_catch
    (b <- destructure (body req) ;;
     data <- await (AxiosRequest POST (stravaApiBaseUrl ++ "/activities")
                      (Some (JObj [("user_id", prop b "user_id");
                                   ("access_token", prop b "access_token");
                                   ("refresh_token", prop b "refresh_token");
                                   ("expires_at", prop b "expires_at")]))
                      (bearer req)) ;;
     perform (ResJson 200 data))
    (handler_catch "Error creating activity:").

Definition get_activity (req : request) : prog unit :=
  try_catch
    (data <- await (AxiosRequest GET
                      (stravaApiBaseUrl ++ "/activities/" ++ params_id req)
                      None (bearer req)) ;;
     perform (ResJson 200 data))
    (handler_catch "Error retrieving activity:").

Definition get_activity_comments (req : request) : prog unit :=
  try_catch
    (data <- await (AxiosRequest GET
                      (stravaApiBaseUrl ++ "/activities/" ++ params_id req
                         ++ "/comments")
                      None (bearer req)) ;;
     perform (ResJson 200 data))
    (handler_catch "Error listing activity comments:").

Definition get_athlete_activities (req : request) : prog unit :=
  try_catch
    (data <- await (AxiosRequest GET (stravaApiBaseUrl ++ "/athlete/activities")
                      None (bearer req)) ;;
     perform (ResJson 200 data))
    (handler_catch "Error listing athlete activities:").

Definition put_activity (req : request) : prog unit :=
  try_catch
    (b <- destructure (body req) ;;
     data <- await (AxiosRequest PUT
                      (stravaApiBaseUrl ++ "/activities/" ++ params_id req)
                      (Some (JObj [("name", prop b "name");
                                   ("type", prop b "type")]))
                      (bearer req)) ;;
     perform (ResJson 200 data))
    (handler_catch "Error updating activity:").

(** ** The application: six routes, each behind the middleware *)

Inductive route : Type :=
| GetAthlete
| PostActivities
| GetActivity
| GetActivityComments
| GetAthleteActivities
| PutActivity.

Definition handler (r : route) : request -> prog unit :=
  match r with
  | GetAthlete => get_athlete
  | PostActivities => post_activities
  | GetActivity => get_activity
  | GetActivityComments => get_activity_comments
  | GetAthleteActivities => get_athlete_activities
  | PutActivity => put_activity
  end.

(** An incoming HTTP request, already matched against the route table:
    the route, the [:id] segment of its path and the JSON entity sent. *)
Record http_request : Type := {
  hr_route : route;
  hr_id : string;
  hr_entity : js_value
}.

(** The request object Express hands to the route's functions.  The
    application is created bare ([express()], line 6) and registers only the
    six routes: no body parser is installed with [app.use], so nothing
    ever assigns [req.body] and it stays [undefined], whatever entity the
    client sent. *)
Definition express_request (h : http_request) : request :=
  {| params_id := hr_id h; body := JUndefined; accessToken := Undefined |}.

Definition app (h : http_request) : prog unit :=
  ensureAccessToken (express_request h) (handler (hr_route h)).

(** * Vocabulary of the properties *)

(** ** Reading a trace *)

(** The responses sent to the client: status and body. *)
Definition responses (tr : list event) : list (Z * js_value) :=
  flat_map (fun ev => match ev with
                      | Event op _ =>
                          match op with
                          | ResJson st b => [(st, b)]
                          | _ => []
                          end
                      end) tr.

(** The bodies posted to the token endpoint. *)
Definition token_posts (tr : list event) : list token_request :=
  flat_map (fun ev => match ev with
                      | Event op _ =>
                          match op with
                          | AxiosPostToken _ data => [data]
                          | _ => []
                          end
                      end) tr.

(** The requests forwarded to the Strava API. *)
Definition api_requests (tr : list event)
  : list (method * string * option js_value * string) :=
  flat_map (fun ev => match ev with
                      | Event op _ =>
                          match op with
                          | AxiosRequest m url data auth =>
                              [(m, url, data, auth)]
                          | _ => []
                          end
                      end) tr.

(** An awaited effect that was answered with an error. *)
Definition failed (ev : event) : bool :=
  match ev with
  | Event op x =>
      match op in io T return T -> bool with
      | PoolGetConnection _ =>
          fun x => match x with Some _ => true | None => false end
      | ConnectionQuery _ =>
          fun x => match x with inl _ => true | inr _ => false end
      | AxiosPostToken _ _ =>
          fun x => match x with inl _ => true | inr _ => false end
      | AxiosRequest _ _ _ _ =>
          fun x => match x with inl _ => true | inr _ => false end
      | _ => fun _ => false
      end x
  end.

Definition log (w : world) (evs : list event) : world :=
  {| table := table w; trace := (trace w ++ evs)%list |}.

(** The record the middleware sees: the first row with [id = 1]. *)
Definition stored (tbl : list row) : option row :=
  nth_error (filter is_id1 tbl) 0.

(** The effects of an [executeQuery] that succeeds on table [tbl]. *)
Definition query_events (q : sql) (tbl : list row) : list event :=
  [Event (PoolGetConnection q) None;
   Event (ConnectionQuery q) (inr (snd (exec_sql q tbl)));
   Event ConnectionRelease tt].

(** How an [executeQuery] fails: no connection, or the statement is
    refused; [evs] are the effects it performs on the way. *)
Definition query_fails (e : env) (q : sql) (err : js_error)
  (evs : list event) : Prop :=
  (getConnection_err e q = Some err /\
   evs = [Event (PoolGetConnection q) (Some err)]) \/
  (getConnection_err e q = None /\ query_err e q = Some err /\
   evs = [Event (PoolGetConnection q) None;
          Event (ConnectionQuery q) (inl err);
          Event ConnectionRelease tt]).

Definition query_succeeds (e : env) (q : sql) : Prop :=
  getConnection_err e q = None /\ query_err e q = None.

(** The request to the token endpoint, as the source builds it. *)
Definition token_url : string := "https://www.strava.com/oauth/token".

Definition refresh_request : token_request :=
  {| client_id := strava_clientId config;
     client_secret := strava_clientSecret config;
     grant_type := "refresh_token";
     rq_refresh_token := strava_accessToken config |}.

Definition write_of (d : token_response) : sql :=
  UpdateAuth (rs_access_token d) (rs_refresh_token d) (rs_expires_at d).

Definition auth_log (err : js_error) : event :=
  Event (ConsoleError "Error authenticating with Strava:" err) tt.

(** The error of destructuring a [response.data] that is [null] or
    [undefined] (line 47). *)
Definition no_response_data : js_error :=
  TypeError "Cannot destructure property 'access_token'".

(** The record that results from writing the response [d] over [r]. *)
Definition refreshed (r : row) (d : token_response) : row :=
  {| id := id r;
     access_token := to_column (rs_access_token d);
     refresh_token := to_column (rs_refresh_token d);
     expires_at := rs_expires_at d |}.

(** A count of seconds since the epoch that denotes an instant up to the
    end of the year 9999. *)
Definition epoch_seconds (s : Z) : Prop := 0 <= s <= 253402300799.

(** A reading of [Date.now()] on or after 9 September 2001, when the count
    of milliseconds since the epoch passed 10^12. *)
Definition present_day (now : Z) : Prop := 1000000000000 <= now.

Definition no_failure (evs : list event) : bool :=
  forallb (fun ev => negb (failed ev)) evs.

(** The table of routes of the interface: what each one forwards to. *)
Definition upstream_method (r : route) : method :=
  match r with
  | PostActivities => POST
  | PutActivity => PUT
  | _ => GET
  end.

Definition upstream_path (r : route) (id : string) : string :=
  match r with
  | GetAthlete => "/athlete"
  | PostActivities => "/activities"
  | GetActivity => "/activities/" ++ id
  | GetActivityComments => "/activities/" ++ id ++ "/comments"
  | GetAthleteActivities => "/athlete/activities"
  | PutActivity => "/activities/" ++ id
  end.

Definition pick (keys : list string) (b : js_value) : js_value :=
  JObj (map (fun k => (k, prop b k)) keys).

Definition upstream_body (r : route) (b : js_value) : option js_value :=
  match r with
  | PostActivities =>
      Some (pick ["user_id"; "access_token"; "refresh_token"; "expires_at"] b)
  | PutActivity => Some (pick ["name"; "type"] b)
  | _ => None
  end.

Definition reads_body (r : route) : bool :=
  match r with
  | PostActivities | PutActivity => true
  | _ => false
  end.

(** The message each handler logs in its [catch] block. *)
Definition error_message (r : route) : string :=
  match r with
  | GetAthlete => "Error retrieving athlete:"
  | PostActivities => "Error creating activity:"
  | GetActivity => "Error retrieving activity:"
  | GetActivityComments => "Error listing activity comments:"
  | GetAthleteActivities => "Error listing athlete activities:"
  | PutActivity => "Error updating activity:"
  end.

(** A request is answered once: with 500 and the generic body, or with 200
    when no awaited effect failed. *)
Definition answered_once (evs : list event) : Prop :=
  responses evs = [(500, internal_server_error)] \/
  (exists data, responses evs = [(200, data)] /\ no_failure evs = true).

(** An environment in which a request that finds the stale record [r]
    refreshes it without mishap, the token endpoint answering [d]. *)
Definition refreshing (r : row) (e : env) (d : token_response) : Prop :=
  query_succeeds e SelectAuth /\
  expired_or_soon (clock e) (expires_at r) = true /\
  token_endpoint e token_url refresh_request = inr (Some d) /\
  query_succeeds e (write_of d).

(** GET /athlete *)
Definition athlete_request : http_request :=
  {| hr_route := GetAthlete; hr_id := ""; hr_entity := JNull |}.

Definition athlete_url : string := "https://www.strava.com/api/v3/athlete".

(** What the handler of GET /athlete does once axios has answered [a]. *)
Definition athlete_answer (a : js_error + js_value) : list event :=
  match a with
  | inl err => [Event (ConsoleError "Error retrieving athlete:" err) tt;
                Event (ResJson 500 internal_server_error) tt]
  | inr data => [Event (ResJson 200 data) tt]
  end.

(** One round: every request in flight takes one turn, in order. *)
Fixpoint round (ts : list task) (tbl : list row) : list task * list row :=
  match ts with
  | [] => ([], tbl)
  | t :: rest =>
      let '(t', tbl1) := turn_task t tbl in
      let '(rest', tbl2) := round rest tbl1 in
      (t' :: rest', tbl2)
  end.

Fixpoint rounds (k : nat) (ts : list task) (tbl : list row)
  : list task * list row :=
  match k with
  | O => (ts, tbl)
  | S k' => let '(ts', tbl') := round ts tbl in rounds k' ts' tbl'
  end.

(** A request served alone against the table [tbl0], after [j] turns. *)
Definition alone (p : prog unit) (e : env) (tbl0 : list row) (j : nat)
  : task * list row :=
  Nat.iter j (fun st => turn_task (fst st) (snd st)) (new_task p e, tbl0).

(** What the [j]-th turn of a refreshing request does to the table: its
    fifth turn (the UPDATE) writes the triple, the others nothing. *)
Definition turn_effect (j : nat) (d : token_response) (tbl : list row)
  : list row :=
  match j with
  | 4%nat => map (set_triple (rs_access_token d) (rs_refresh_token d)
                    (rs_expires_at d)) tbl
  | _ => tbl
  end.

(** What the table must look like for the [j]-th turn of a refreshing
    request to be answered as it is when the request is alone: its second
    turn (the SELECT) reads the rows, its fifth (the UPDATE) counts them. *)
Definition turn_cond (j : nat) (tbl0 tbl : list row) : Prop :=
  match j with
  | 1%nat => tbl = tbl0
  | 4%nat => List.length (filter is_id1 tbl) = List.length (filter is_id1 tbl0)
  | _ => True
  end.

(** Everything a request for GET /athlete does when it finds the record
    stale in table [tbl0] and refreshes it without mishap. *)
Definition refresh_trace (e : env) (d : token_response) (tbl0 : list row)
  : list event :=
  (query_events SelectAuth tbl0
   ++ [Event DateNow (clock e);
       Event (AxiosPostToken token_url refresh_request) (inr (Some d))]
   ++ query_events (write_of d) tbl0
   ++ Event (AxiosRequest GET athlete_url None
               ("Bearer " ++ to_string (rs_access_token d)))
        (api_endpoint e GET athlete_url None
           ("Bearer " ++ to_string (rs_access_token d)))
      :: athlete_answer
           (api_endpoint e GET athlete_url None
              ("Bearer " ++ to_string (rs_access_token d))))%list.

(** ** Concrete inputs *)

Definition config0 : Config :=
  {| strava_clientId := "12345";
     strava_clientSecret := "client-secret";
     strava_accessToken := "config-access-token" |}.

(** A [Date.parse] that recognises no string. *)
Definition parse0 (s : string) : option Z := None.

(** 14 November 2023, 22:13:20 UTC, in milliseconds. *)
Definition now0 : Z := 1700000000000.

Definition fresh_row : row :=
  {| id := 1; access_token := Some "A1"; refresh_token := Some "R1";
     expires_at := CNum (now0 + 3600000) |}.

(** Expired ten seconds ago. *)
Definition stale_row : row :=
  {| id := 1; access_token := Some "A1"; refresh_token := Some "R1";
     expires_at := CNum (now0 - 10000) |}.

(** An expiry one hour ahead, counted in seconds as Strava sends it. *)
Definition seconds_row : row :=
  {| id := 1; access_token := Some "A1"; refresh_token := Some "R1";
     expires_at := CNum 1700003600 |}.

Definition world_of (tbl : list row) : world := {| table := tbl; trace := [] |}.

Definition response2 : token_response :=
  {| rs_access_token := Text "A2"; rs_refresh_token := Text "R2";
     rs_expires_at := CNum (now0 + 3600000) |}.

Definition response3 : token_response :=
  {| rs_access_token := Text "A3"; rs_refresh_token := Text "R3";
     rs_expires_at := CNum (now0 + 3600000) |}.

Definition athlete : js_value := JObj [("id", JNum 7); ("username", JStr "rider")].

(** Everything works; the token endpoint answers [d]. *)
Definition env_ok (d : token_response) : env :=
  {| clock := now0;
     getConnection_err := fun _ => None;
     query_err := fun _ => None;
     token_endpoint := fun _ _ => inr (Some d);
     api_endpoint := fun _ _ _ _ => inr athlete |}.

(** The token endpoint answers 401. *)
Definition env_rejected : env :=
  {| clock := now0;
     getConnection_err := fun _ => None;
     query_err := fun _ => None;
     token_endpoint := fun _ _ => inl (AxiosError (Some 401));
     api_endpoint := fun _ _ _ _ => inr athlete |}.

(** The UPDATE is refused; everything else works. *)
Definition env_write_refused : env :=
  {| clock := now0;
     getConnection_err := fun _ => None;
     query_err := fun q => match q with
                           | SelectAuth => None
                           | UpdateAuth _ _ _ => Some (QueryError "ER_LOCK_DEADLOCK")
                           end;
     token_endpoint := fun _ _ => inr (Some response2);
     api_endpoint := fun _ _ _ _ => inr athlete |}.

(** No connection can be had. *)
Definition env_store_down : env :=
  {| clock := now0;
     getConnection_err := fun _ => Some (PoolError "ECONNREFUSED");
     query_err := fun _ => None;
     token_endpoint := fun _ _ => inr (Some response2);
     api_endpoint := fun _ _ _ _ => inr athlete |}.

Definition req0 : request :=
  {| params_id := "42"; body := JUndefined; accessToken := Undefined |}.

(** A continuation that does nothing. *)
Definition next0 (req : request) : prog unit := Ret tt.

(** PUT /activities/42 with a name and a type. *)
Definition put_request : http_request :=
  {| hr_route := PutActivity; hr_id := "42";
     hr_entity := JObj [("name", JStr "Morning Ride"); ("type", JStr "Ride")] |}.

(** ** The shapes a request can take

    What the middleware can do on a table [tbl]: the effects it performs,
    the table it leaves and the token it hands to [next] ([None] when it
    has answered 500 itself). *)
Inductive middleware_trace (e : env) (tbl : list row)
  : list event -> list row -> option js_text -> Prop :=
| MT_read_fails err evs :
    query_fails e SelectAuth err evs ->
    middleware_trace e tbl
      (evs ++ [Event (ResJson 500 internal_server_error) tt]) tbl None
| MT_no_record :
    query_succeeds e SelectAuth ->
    stored tbl = None ->
    middleware_trace e tbl
      (query_events SelectAuth tbl
       ++ [Event (ResJson 500 internal_server_error) tt]) tbl None
| MT_fresh r :
    query_succeeds e SelectAuth ->
    stored tbl = Some r ->
    expired_or_soon (clock e) (expires_at r) = false ->
    middleware_trace e tbl
      (query_events SelectAuth tbl ++ [Event DateNow (clock e)])
      tbl (Some (of_column (access_token r)))
| MT_rejected r err :
    query_succeeds e SelectAuth ->
    stored tbl = Some r ->
    expired_or_soon (clock e) (expires_at r) = true ->
    token_endpoint e token_url refresh_request = inl err ->
    middleware_trace e tbl
      (query_events SelectAuth tbl
       ++ [Event DateNow (clock e);
           Event (AxiosPostToken token_url refresh_request) (inl err);
           auth_log err;
           Event (ResJson 500 internal_server_error) tt]) tbl None
| MT_malformed r :
    query_succeeds e SelectAuth ->
    stored tbl = Some r ->
    expired_or_soon (clock e) (expires_at r) = true ->
    token_endpoint e token_url refresh_request = inr None ->
    middleware_trace e tbl
      (query_events SelectAuth tbl
       ++ [Event DateNow (clock e);
           Event (AxiosPostToken token_url refresh_request) (inr None);
           auth_log no_response_data;
           Event (ResJson 500 internal_server_error) tt]) tbl None
| MT_write_fails r d err evs :
    query_succeeds e SelectAuth ->
    stored tbl = Some r ->
    expired_or_soon (clock e) (expires_at r) = true ->
    token_endpoint e token_url refresh_request = inr (Some d) ->
    query_fails e (write_of d) err evs ->
    middleware_trace e tbl
      (query_events SelectAuth tbl
       ++ [Event DateNow (clock e);
           Event (AxiosPostToken token_url refresh_request) (inr (Some d))]
       ++ evs
       ++ [auth_log err; Event (ResJson 500 internal_server_error) tt])
      tbl None
| MT_refreshed r d :
    query_succeeds e SelectAuth ->
    stored tbl = Some r ->
    expired_or_soon (clock e) (expires_at r) = true ->
    token_endpoint e token_url refresh_request = inr (Some d) ->
    query_succeeds e (write_of d) ->
    middleware_trace e tbl
      (query_events SelectAuth tbl
       ++ [Event DateNow (clock e);
           Event (AxiosPostToken token_url refresh_request) (inr (Some d))]
       ++ query_events (write_of d) tbl)
      (map (set_triple (rs_access_token d) (rs_refresh_token d)
              (rs_expires_at d)) tbl)
      (Some (rs_access_token d)).

(** What a handler can do. *)
Inductive handler_trace (e : env) (r0 : route) (req : request)
  : list event -> Prop :=
| HT_no_body :
    reads_body r0 = true ->
    destructurable (body req) = false ->
    handler_trace e r0 req
      [Event (ConsoleError (error_message r0)
                (TypeError
                   "Cannot destructure property of undefined or null")) tt;
       Event (ResJson 500 internal_server_error) tt]
| HT_upstream_fails err :
    (reads_body r0 = true -> destructurable (body req) = true) ->
    api_endpoint e (upstream_method r0)
      (stravaApiBaseUrl ++ upstream_path r0 (params_id req))
      (upstream_body r0 (body req)) (bearer req) = inl err ->
    handler_trace e r0 req
      [Event (AxiosRequest (upstream_method r0)
                (stravaApiBaseUrl ++ upstream_path r0 (params_id req))
                (upstream_body r0 (body req)) (bearer req)) (inl err);
       Event (ConsoleError (error_message r0) err) tt;
       Event (ResJson 500 internal_server_error) tt]
| HT_forwards data :
    (reads_body r0 = true -> destructurable (body req) = true) ->
    api_endpoint e (upstream_method r0)
      (stravaApiBaseUrl ++ upstream_path r0 (params_id req))
      (upstream_body r0 (body req)) (bearer req) = inr data ->
    handler_trace e r0 req
      [Event (AxiosRequest (upstream_method r0)
                (stravaApiBaseUrl ++ upstream_path r0 (params_id req))
                (upstream_body r0 (body req)) (bearer req)) (inr data);
       Event (ResJson 200 data) tt].

(** A whole request: the middleware's part, then the handler's when the
    middleware has called [next]. *)
Definition request_trace (e : env) (r0 : route) (req : request)
  (tbl : list row) (evs : list event) (tbl' : list row) : Prop :=
  exists pre tok hev,
    evs = (pre ++ hev)%list /\
    middleware_trace e tbl pre tbl' tok /\
    match tok with
    | None => hev = []
    | Some t => handler_trace e r0 (set_accessToken req t) hev
    end.

(** ** Counting effects *)

(** A connection was handed out. *)
Definition is_acquire (ev : event) : bool :=
  match ev with
  | Event op x =>
      match op in io T return T -> bool with
      | PoolGetConnection _ =>
          fun x => match x with None => true | Some _ => false end
      | _ => fun _ => false
      end x
  end.

Definition is_release (ev : event) : bool :=
  match ev with
  | Event op _ => match op with ConnectionRelease => true | _ => false end
  end.

Definition is_statement (ev : event) : bool :=
  match ev with
  | Event op _ => match op with ConnectionQuery _ => true | _ => false end
  end.

Definition count (f : event -> bool) (tr : list event) : nat :=
  List.length (filter f tr).

(** The messages written with [console.error]. *)
Definition logged (tr : list event) : list string :=
  flat_map (fun ev => match ev with
                      | Event op _ =>
                          match op with
                          | ConsoleError msg _ => [msg]
                          | _ => []
                          end
                      end) tr.

(** A record whose expiry does not read as a date, and one without an
    expiry. *)
Definition undated_row : row :=
  {| id := 1; access_token := Some "A1"; refresh_token := Some "R1";
     expires_at := CStr "soon" |}.

Definition null_row : row :=
  {| id := 1; access_token := Some "A1"; refresh_token := Some "R1";
     expires_at := CNull |}.

(** The answer of the token endpoint as Strava gives it: the expiry one
    hour ahead, counted in seconds. *)
Definition response_seconds : token_response :=
  {| rs_access_token := Text "A2"; rs_refresh_token := Text "R2";
     rs_expires_at := CNum 1700003600 |}.

(** An answer that lacks [access_token]. *)
Definition response_no_token : token_response :=
  {| rs_access_token := Undefined; rs_refresh_token := Text "R2";
     rs_expires_at := CNum (now0 + 3600000) |}.

(** One second later, everything working. *)
Definition env_soon : env :=
  {| clock := now0 + 1000;
     getConnection_err := fun _ => None;
     query_err := fun _ => None;
     token_endpoint := fun _ _ => inr (Some response3);
     api_endpoint := fun _ _ _ _ => inr athlete |}.

(** The token endpoint answers 200 without data. *)
Definition env_no_data : env :=
  {| clock := now0;
     getConnection_err := fun _ => None;
     query_err := fun _ => None;
     token_endpoint := fun _ _ => inr None;
     api_endpoint := fun _ _ _ _ => inr athlete |}.

(** GET /activities/42/comments *)
Definition comments_request : http_request :=
  {| hr_route := GetActivityComments; hr_id := "42"; hr_entity := JNull |}.

Definition comments : js_value :=
  JArr [JObj [("id", JNum 1); ("text", JStr "Nice ride")]].

(** Everything works; the API answers [comments]. *)
Definition env_comments : env :=
  {| clock := now0;
     getConnection_err := fun _ => None;
     query_err := fun _ => None;
     token_endpoint := fun _ _ => inr (Some response2);
     api_endpoint := fun _ _ _ _ => inr comments |}.

(** The same an hour later. *)
Definition env_later : env :=
  {| clock := now0 + 3600000;
     getConnection_err := fun _ => None;
     query_err := fun _ => None;
     token_endpoint := fun _ _ => inr (Some response3);
     api_endpoint := fun _ _ _ _ => inr athlete |}.

(** The SELECT is refused. *)
Definition env_read_refused : env :=
  {| clock := now0;
     getConnection_err := fun _ => None;
     query_err := fun q => match q with
                           | SelectAuth => Some (QueryError "ER_NO_SUCH_TABLE")
                           | UpdateAuth _ _ _ => None
                           end;
     token_endpoint := fun _ _ => inr (Some response2);
     api_endpoint := fun _ _ _ _ => inr athlete |}.

(** * Properties *)

(** Symbolic execution of a run: unfold one effect, use what is known of
    the environment, repeat. *)
Ltac use_env :=
  match goal with
  | H : ?l = _ |- context [?l] => rewrite H
  end.

Ltac exec :=
  repeat (progress (cbn; try unfold step; try unfold answer; cbn;
                    try use_env)).

Ltac turn_step :=
  unfold turn; cbn;
  repeat (progress (try unfold step; try unfold answer; cbn; try use_env)).

(** ** The interpreter *)

Lemma run_bind {A B} (e : env) (p : prog A) (f : A -> prog B) :
  forall w,
    run e (bind p f) w =
    match run e p w with
    | (w', inl err) => (w', inl err)
    | (w', inr a) => run e (f a) w'
    end.
Proof.
  induction p as [a | err | T op k IH]; intro w; cbn; try reflexivity.
  destruct (step e op w) as [w' x]. apply IH.
Qed.

Lemma run_try_catch {A} (e : env) (p : prog A) (h : js_error -> prog A) :
  forall w,
    run e (try_catch p h) w =
    match run e p w with
    | (w', inl err) => run e (h err) w'
    | (w', inr a) => (w', inr a)
    end.
Proof.
  induction p as [a | err | T op k IH]; intro w; cbn; try reflexivity.
  destruct (step e op w) as [w' x]. apply IH.
Qed.

Lemma step_trace e {T} (op : io T) w :
  trace (fst (step e op w)) = (trace w ++ [Event op (snd (step e op w))])%list.
Proof. unfold step. destruct (answer e (table w) op); reflexivity. Qed.

(** A run only appends to the trace. *)
Lemma run_trace_extends {A} (e : env) (p : prog A) :
  forall w, exists rest,
    trace (fst (run e p w)) = (trace w ++ rest)%list.
Proof.
  induction p as [a | err | T op k IH]; intro w; cbn.
  - exists []. now rewrite app_nil_r.
  - exists []. now rewrite app_nil_r.
  - pose proof (step_trace e op w) as Hs.
    destruct (step e op w) as [w' x]; cbn in Hs.
    destruct (IH x w') as [rest Hrest].
    exists (Event op x :: rest). rewrite Hrest, Hs. now rewrite <- app_assoc.
Qed.

(** ** executeQuery *)

Lemma run_executeQuery_fails e q w err evs :
  query_fails e q err evs ->
  run e (executeQuery q) w = (log w evs, inl err).
Proof.
  intros [[Hc ->] | [Hc [Hq ->]]]; unfold executeQuery, log; exec.
  - reflexivity.
  - now rewrite <- !app_assoc.
Qed.

Lemma run_executeQuery_ok e q w :
  query_succeeds e q ->
  run e (executeQuery q) w =
  ({| table := fst (exec_sql q (table w));
      trace := (trace w ++ query_events q (table w))%list |},
   inr (snd (exec_sql q (table w)))).
Proof.
  intros [Hc Hq]. unfold executeQuery, query_events. exec.
  destruct (exec_sql q (table w)) as [tbl res]; cbn. now rewrite <- !app_assoc.
Qed.

(** ** authenticateWithStrava *)

(** The function with its request named. *)
Lemma authenticateWithStrava_eq :
  authenticateWithStrava =
  try_catch
    (response <- await (AxiosPostToken token_url refresh_request) ;;
     match response with
     | None => Throw no_response_data
     | Some data =>
         executeQuery (write_of data) ;;
         Ret (rs_access_token data)
     end)
    (fun error =>
       perform (ConsoleError "Error authenticating with Strava:" error) ;;
       Throw error).
Proof. reflexivity. Qed.

Lemma run_await e {T} (op : io (js_error + T)) w :
  run e (await op) w =
  ({| table := fst (answer e (table w) op);
      trace := (trace w ++ [Event op (snd (answer e (table w) op))])%list |},
   snd (answer e (table w) op)).
Proof.
  unfold await; cbn. unfold step.
  destruct (answer e (table w) op) as [tbl [err | v]]; reflexivity.
Qed.

Lemma run_authenticate_rejected e w err :
  token_endpoint e token_url refresh_request = inl err ->
  run e authenticateWithStrava w =
  (log w [Event (AxiosPostToken token_url refresh_request) (inl err);
          auth_log err], inl err).
Proof.
  intro H. rewrite authenticateWithStrava_eq.
  rewrite run_try_catch, run_bind, run_await. cbn [answer fst snd].
  rewrite H. cbn. unfold log, auth_log; cbn. now rewrite <- !app_assoc.
Qed.

(** An answer without data: the destructuring of line 47 throws, nothing
    is written. *)
Lemma run_authenticate_malformed e w :
  token_endpoint e token_url refresh_request = inr None ->
  run e authenticateWithStrava w =
  (log w [Event (AxiosPostToken token_url refresh_request) (inr None);
          auth_log no_response_data], inl no_response_data).
Proof.
  intro H. rewrite authenticateWithStrava_eq.
  rewrite run_try_catch, run_bind, run_await. cbn [answer fst snd].
  rewrite H. cbn. unfold log, auth_log; cbn. now rewrite <- !app_assoc.
Qed.

Lemma run_authenticate_write_fails e w d err evs :
  token_endpoint e token_url refresh_request = inr (Some d) ->
  query_fails e (write_of d) err evs ->
  run e authenticateWithStrava w =
  (log w (Event (AxiosPostToken token_url refresh_request) (inr (Some d))
            :: evs ++ [auth_log err]), inl err).
Proof.
  intros H Hw. rewrite authenticateWithStrava_eq.
  rewrite run_try_catch, run_bind, run_await. cbn [answer fst snd].
  rewrite H. rewrite run_bind, (run_executeQuery_fails _ _ _ _ _ Hw).
  cbn. unfold log, auth_log; cbn. f_equal. f_equal.
  rewrite <- !app_assoc. reflexivity.
Qed.

Lemma run_authenticate_ok e w d :
  token_endpoint e token_url refresh_request = inr (Some d) ->
  query_succeeds e (write_of d) ->
  run e authenticateWithStrava w =
  ({| table := map (set_triple (rs_access_token d) (rs_refresh_token d)
                      (rs_expires_at d)) (table w);
      trace := (trace w
                ++ Event (AxiosPostToken token_url refresh_request)
                     (inr (Some d))
                   :: query_events (write_of d) (table w))%list |},
   inr (rs_access_token d)).
Proof.
  intros H Hw. rewrite authenticateWithStrava_eq.
  rewrite run_try_catch, run_bind, run_await. cbn [answer fst snd].
  rewrite H. rewrite run_bind, (run_executeQuery_ok _ _ _ Hw).
  cbn. f_equal. f_equal. rewrite <- !app_assoc. reflexivity.
Qed.

(** ** The staleness test *)

Lemma expired_or_soon_spec now v :
  expired_or_soon now v = true <->
  exists t, Date_getTime v = Some t /\ now > t - 60000.
Proof.
  unfold expired_or_soon. destruct (Date_getTime v) as [t |].
  - rewrite Z.gtb_gt. split.
    + intro H. exists t. split; [reflexivity | lia].
    + intros [t' [Ht' H]]. inversion Ht'; subst. lia.
  - split; [discriminate | intros [t [Ht _]]; discriminate].
Qed.

Lemma not_expired now v t :
  Date_getTime v = Some t -> now <= t - 60000 -> expired_or_soon now v = false.
Proof.
  intros Hv Hle. unfold expired_or_soon. rewrite Hv.
  rewrite Z.gtb_ltb. apply Z.ltb_ge. lia.
Qed.

(** ** The middleware *)

(** What the middleware does up to and including its reading of the clock,
    when the SELECT succeeds and finds a record. *)
Lemma run_ensureAccessToken_read req next e w r :
  query_succeeds e SelectAuth ->
  stored (table w) = Some r ->
  run e (ensureAccessToken req next) w =
  run e (try_catch
           (req' <- (if expired_or_soon (clock e) (expires_at r)
                     then t <- authenticateWithStrava ;;
                          Ret (set_accessToken req t)
                     else Ret (set_accessToken req (of_column (access_token r)))) ;;
            next req')
           ensureAccessToken_catch)
      (log w (query_events SelectAuth (table w)
              ++ [Event DateNow (clock e)])).
Proof.
  intros Hs Hr. unfold ensureAccessToken.
  rewrite !run_try_catch, run_bind, (run_executeQuery_ok _ _ _ Hs).
  cbn [exec_sql fst snd first_row]. unfold stored in Hr. rewrite Hr.
  cbn. unfold log, query_events; cbn. now rewrite <- !app_assoc.
Qed.

(** The stale path, up to the outcome of [authenticateWithStrava]. *)
Lemma run_ensureAccessToken_stale req next e w r :
  query_succeeds e SelectAuth ->
  stored (table w) = Some r ->
  expired_or_soon (clock e) (expires_at r) = true ->
  run e (ensureAccessToken req next) w =
  match run e authenticateWithStrava
          (log w (query_events SelectAuth (table w)
                  ++ [Event DateNow (clock e)])) with
  | (w', inl err) => run e (ensureAccessToken_catch err) w'
  | (w', inr t) =>
      run e (try_catch (next (set_accessToken req t)) ensureAccessToken_catch)
        w'
  end.
Proof.
  intros Hs Hr Hx. rewrite (run_ensureAccessToken_read _ _ _ _ _ Hs Hr), Hx.
  rewrite run_try_catch, !run_bind.
  destruct (run e authenticateWithStrava _) as [w' [err | t]]; cbn.
  - reflexivity.
  - now rewrite run_try_catch.
Qed.

(** The fresh path. *)
Lemma run_ensureAccessToken_fresh req next e w r t :
  query_succeeds e SelectAuth ->
  stored (table w) = Some r ->
  Date_getTime (expires_at r) = Some t ->
  clock e <= t - 60000 ->
  run e (ensureAccessToken req next) w =
  run e (try_catch (next (set_accessToken req (of_column (access_token r))))
           ensureAccessToken_catch)
      {| table := table w;
         trace := (trace w ++ query_events SelectAuth (table w)
                   ++ [Event DateNow (clock e)])%list |}.
Proof.
  intros Hs Hr Ht Hle.
  rewrite (run_ensureAccessToken_read _ _ _ _ _ Hs Hr).
  rewrite (not_expired _ _ _ Ht Hle). reflexivity.
Qed.

(** Whatever happens afterwards, the stale path sends [refresh_request] to
    the token endpoint right after reading the clock. *)
Lemma stale_path_posts req next e w r :
  query_succeeds e SelectAuth ->
  stored (table w) = Some r ->
  expired_or_soon (clock e) (expires_at r) = true ->
  exists rest,
    trace (fst (run e (ensureAccessToken req next) w)) =
    (trace w ++ query_events SelectAuth (table w)
     ++ [Event DateNow (clock e);
         Event (AxiosPostToken token_url refresh_request)
           (token_endpoint e token_url refresh_request)]
     ++ rest)%list.
Proof.
  intros Hs Hr Hx. rewrite (run_ensureAccessToken_read _ _ _ _ _ Hs Hr), Hx.
  rewrite authenticateWithStrava_eq. cbn [await bind try_catch run].
  pose proof (step_trace e (AxiosPostToken token_url refresh_request)
                (log w (query_events SelectAuth (table w)
                        ++ [Event DateNow (clock e)]))) as Hstep.
  destruct (step e _ _) as [w1 x] eqn:Hw1. cbn [fst snd] in Hstep.
  assert (Hx1 : x = token_endpoint e token_url refresh_request).
  { unfold step in Hw1; cbn in Hw1. now inversion Hw1. }
  match goal with |- context [run e ?p w1] =>
    destruct (run_trace_extends e p w1) as [rest Hrest] end.
  exists rest. rewrite Hrest, Hstep, Hx1. unfold log; cbn [trace].
  rewrite <- !app_assoc. reflexivity.
Qed.

(** The table after a successful write. *)
Lemma is_id1_set_triple a rt x r : is_id1 (set_triple a rt x r) = is_id1 r.
Proof. unfold set_triple. destruct (is_id1 r) eqn:H; [exact H | exact H]. Qed.

Lemma filter_id1_set_triple a rt x tbl :
  filter is_id1 (map (set_triple a rt x) tbl) =
  map (set_triple a rt x) (filter is_id1 tbl).
Proof.
  induction tbl as [| r tbl IH]; cbn; [reflexivity |].
  rewrite is_id1_set_triple. destruct (is_id1 r); cbn; now rewrite IH.
Qed.

Lemma stored_after_write d tbl r :
  stored tbl = Some r ->
  stored (map (set_triple (rs_access_token d) (rs_refresh_token d)
                 (rs_expires_at d)) tbl) = Some (refreshed r d).
Proof.
  unfold stored. rewrite filter_id1_set_triple.
  destruct (filter is_id1 tbl) as [| r0 rest] eqn:Hf; cbn; [discriminate |].
  intro H; inversion H; subst r0.
  assert (Hid : is_id1 r = true).
  { assert (Hin : In r (filter is_id1 tbl)) by (rewrite Hf; now left).
    apply filter_In in Hin. tauto. }
  unfold set_triple, refreshed. now rewrite Hid.
Qed.

(** C2. Whenever the stored token is judged stale, the middleware posts to
    [{authBaseUrl}/token] the configured client id and secret and the grant
    type [refresh_token]; but the [refresh_token] it sends is
    [config.strava.accessToken], whatever refresh token the record read
    from the table holds. *)
Theorem refresh_sends_configured_access_token req next e w r :
  query_succeeds e SelectAuth ->
  stored (table w) = Some r ->
  expired_or_soon (clock e) (expires_at r) = true ->
  exists answer rest,
    trace (fst (run e (ensureAccessToken req next) w)) =
    (trace w ++ query_events SelectAuth (table w)
     ++ [Event DateNow (clock e);
         Event (AxiosPostToken "https://www.strava.com/oauth/token"
                  {| client_id := strava_clientId config;
                     client_secret := strava_clientSecret config;
                     grant_type := "refresh_token";
                     rq_refresh_token := strava_accessToken config |})
           answer]
     ++ rest)%list.
Proof.
  intros Hs Hr Hx.
  destruct (stale_path_posts req next e w r Hs Hr Hx) as [rest H].
  exists (token_endpoint e token_url refresh_request), rest. exact H.
Qed.

(** C4. If the token endpoint rejects the exchange, [authenticateWithStrava]
    throws that very error after logging it; the middleware answers 500
    with the generic body and does not call [next] (no token, stale or new,
    is handed on); no UPDATE is sent and the table is unchanged; and the
    next request that finds the record stale posts to the token endpoint
    again. *)
Theorem rejected_refresh_leaves_store_unchanged req next e w r err :
  query_succeeds e SelectAuth ->
  stored (table w) = Some r ->
  expired_or_soon (clock e) (expires_at r) = true ->
  token_endpoint e token_url refresh_request = inl err ->
  snd (run e authenticateWithStrava w) = inl err /\
  run e (ensureAccessToken req next) w =
  ({| table := table w;
      trace := (trace w ++ query_events SelectAuth (table w)
                ++ [Event DateNow (clock e);
                    Event (AxiosPostToken token_url refresh_request) (inl err);
                    auth_log err;
                    Event (ResJson 500 internal_server_error) tt])%list |},
   inr tt) /\
  forall req2 next2 e2,
    query_succeeds e2 SelectAuth ->
    expired_or_soon (clock e2) (expires_at r) = true ->
    exists rest,
      trace (fst (run e2 (ensureAccessToken req2 next2)
                    (fst (run e (ensureAccessToken req next) w)))) =
      (trace (fst (run e (ensureAccessToken req next) w))
       ++ query_events SelectAuth (table w)
       ++ [Event DateNow (clock e2);
           Event (AxiosPostToken token_url refresh_request)
             (token_endpoint e2 token_url refresh_request)]
       ++ rest)%list.
Proof.
  intros Hs Hr Hx Hrej.
  assert (Hrun : run e (ensureAccessToken req next) w =
    ({| table := table w;
        trace := (trace w ++ query_events SelectAuth (table w)
                  ++ [Event DateNow (clock e);
                      Event (AxiosPostToken token_url refresh_request)
                        (inl err);
                      auth_log err;
                      Event (ResJson 500 internal_server_error) tt])%list |},
     inr tt)).
  { rewrite (run_ensureAccessToken_stale _ _ _ _ _ Hs Hr Hx).
    rewrite (run_authenticate_rejected _ _ _ Hrej).
    cbn. unfold step, log; cbn. rewrite <- !app_assoc. reflexivity. }
  split; [| split].
  - now rewrite (run_authenticate_rejected _ _ _ Hrej).
  - exact Hrun.
  - intros req2 next2 e2 Hs2 Hx2. rewrite Hrun. cbn [fst].
    match goal with |- context [run e2 _ ?w1] =>
      destruct (stale_path_posts req2 next2 e2 w1 r Hs2 Hr Hx2) as [rest H]
    end.
    exists rest. exact H.
Qed.

(** The stale path when the exchange and the write both succeed. *)
Lemma run_ensureAccessToken_refreshed req next e w r d :
  query_succeeds e SelectAuth ->
  stored (table w) = Some r ->
  expired_or_soon (clock e) (expires_at r) = true ->
  token_endpoint e token_url refresh_request = inr (Some d) ->
  query_succeeds e (write_of d) ->
  run e (ensureAccessToken req next) w =
  run e (try_catch (next (set_accessToken req (rs_access_token d)))
           ensureAccessToken_catch)
      {| table := map (set_triple (rs_access_token d) (rs_refresh_token d)
                         (rs_expires_at d)) (table w);
         trace := (trace w ++ query_events SelectAuth (table w)
                   ++ [Event DateNow (clock e);
                       Event (AxiosPostToken token_url refresh_request)
                         (inr (Some d))]
                   ++ query_events (write_of d) (table w))%list |}.
Proof.
  intros Hs Hr Hx Hd Hw.
  rewrite (run_ensureAccessToken_stale _ _ _ _ _ Hs Hr Hx).
  rewrite (run_authenticate_ok _ _ _ Hd Hw).
  unfold log; cbn [table trace]. rewrite <- !app_assoc. reflexivity.
Qed.

(** The staleness test on a number: the number is taken as milliseconds. *)
Lemma expired_or_soon_number now n :
  Z.abs n <= 8640000000000000 ->
  expired_or_soon now (CNum n) = (now >? n - 60000).
Proof.
  intro H. unfold expired_or_soon, Date_getTime, TimeClip.
  destruct (Z.leb_spec (Z.abs n) 8640000000000000); [reflexivity | lia].
Qed.

(** A count of seconds is stale as soon as it does not exceed the clock's
    count of milliseconds by a minute. *)
Lemma seconds_are_stale now s :
  epoch_seconds s -> present_day now -> expired_or_soon now (CNum s) = true.
Proof.
  unfold epoch_seconds, present_day. intros Hs Hn.
  rewrite expired_or_soon_number by lia. apply Z.gtb_gt. lia.
Qed.

(** The request handed to [next], field by field. *)
Lemma fresh_token_handed_on req next e w r t :
  query_succeeds e SelectAuth ->
  stored (table w) = Some r ->
  Date_getTime (expires_at r) = Some t ->
  clock e <= t - 60000 ->
  exists req',
    accessToken req' = of_column (access_token r) /\
    params_id req' = params_id req /\
    body req' = body req /\
    run e (ensureAccessToken req next) w =
    run e (try_catch (next req') ensureAccessToken_catch)
      {| table := table w;
         trace := (trace w ++ query_events SelectAuth (table w)
                   ++ [Event DateNow (clock e)])%list |}.
Proof.
  intros Hs Hr Ht Hle. exists (set_accessToken req (of_column (access_token r))).
  repeat split. now apply (run_ensureAccessToken_fresh req next e w r t).
Qed.

(** C1. What the middleware does with a record it judges fresh is what is
    wanted: the request goes to [next] with [req.accessToken] the stored
    access token, after the SELECT and the clock read only.  But it judges
    by line 69, which takes [expires_at] for milliseconds.  A record whose
    [expires_at] counts seconds, the form in which the token endpoint sends
    it and line 52 stores it, is judged stale at a present-day call made
    more than a minute before the instant it denotes
    ([Date.now() <= 1000 * s - 60000]): the middleware posts to the token
    endpoint instead of handing the stored token on. *)
Theorem fresh_seconds_record_is_refreshed req next e w r s :
  query_succeeds e SelectAuth ->
  stored (table w) = Some r ->
  expires_at r = CNum s ->
  epoch_seconds s ->
  present_day (clock e) ->
  clock e <= 1000 * s - 60000 ->
  (exists rest,
     trace (fst (run e (ensureAccessToken req next) w)) =
     (trace w ++ query_events SelectAuth (table w)
      ++ [Event DateNow (clock e);
          Event (AxiosPostToken token_url refresh_request)
            (token_endpoint e token_url refresh_request)]
      ++ rest)%list) /\
  (forall req1 next1 e1 w1 r1 t,
      query_succeeds e1 SelectAuth ->
      stored (table w1) = Some r1 ->
      Date_getTime (expires_at r1) = Some t ->
      clock e1 <= t - 60000 ->
      exists req',
        accessToken req' = of_column (access_token r1) /\
        params_id req' = params_id req1 /\
        body req' = body req1 /\
        run e1 (ensureAccessToken req1 next1) w1 =
        run e1 (try_catch (next1 req') ensureAccessToken_catch)
          {| table := table w1;
             trace := (trace w1 ++ query_events SelectAuth (table w1)
                       ++ [Event DateNow (clock e1)])%list |}).
Proof.
  intros Hs Hr He Hsec Hnow _. split.
  - apply (stale_path_posts req next e w r Hs Hr).
    rewrite He. now apply seconds_are_stale.
  - intros req1 next1 e1 w1 r1 t. apply fresh_token_handed_on.
Qed.

(** C5. A refresh that succeeds is written and handed on: the request goes
    to [next] with [req.accessToken] the access token of the answer, and the
    stored record holds exactly the three fields of the answer.  But when
    the answer's [expires_at] counts seconds, as the token endpoint sends
    it, the very next call, at any present-day clock more than a minute
    before that expiry ([Date.now() <= 1000 * s - 60000]), judges the new
    record stale and posts to the token endpoint again. *)
Theorem refreshed_seconds_record_is_refreshed_again req next e w r d s :
  query_succeeds e SelectAuth ->
  stored (table w) = Some r ->
  expired_or_soon (clock e) (expires_at r) = true ->
  token_endpoint e token_url refresh_request = inr (Some d) ->
  query_succeeds e (write_of d) ->
  rs_expires_at d = CNum s ->
  epoch_seconds s ->
  let tbl' := map (set_triple (rs_access_token d) (rs_refresh_token d)
                     (rs_expires_at d)) (table w) in
  (exists req',
      accessToken req' = rs_access_token d /\
      params_id req' = params_id req /\
      body req' = body req /\
      run e (ensureAccessToken req next) w =
      run e (try_catch (next req') ensureAccessToken_catch)
        {| table := tbl';
           trace := (trace w ++ query_events SelectAuth (table w)
                     ++ [Event DateNow (clock e);
                         Event (AxiosPostToken token_url refresh_request)
                           (inr (Some d))]
                     ++ query_events (write_of d) (table w))%list |}) /\
  stored tbl' =
  Some {| id := id r;
          access_token := to_column (rs_access_token d);
          refresh_token := to_column (rs_refresh_token d);
          expires_at := CNum s |} /\
  forall req2 next2 e2 w2,
    table w2 = tbl' ->
    query_succeeds e2 SelectAuth ->
    present_day (clock e2) ->
    clock e2 <= 1000 * s - 60000 ->
    exists rest,
      trace (fst (run e2 (ensureAccessToken req2 next2) w2)) =
      (trace w2 ++ query_events SelectAuth tbl'
       ++ [Event DateNow (clock e2);
           Event (AxiosPostToken token_url refresh_request)
             (token_endpoint e2 token_url refresh_request)]
       ++ rest)%list.
Proof.
  intros Hs Hr Hx Hd Hw He Hsec tbl'.
  pose proof (stored_after_write d _ _ Hr) as Hst. fold tbl' in Hst.
  unfold refreshed in Hst. rewrite He in Hst.
  split; [| split].
  - exists (set_accessToken req (rs_access_token d)). repeat split.
    now apply (run_ensureAccessToken_refreshed req next e w r d).
  - exact Hst.
  - intros req2 next2 e2 w2 Htbl Hs2 Hnow _. rewrite <- Htbl in Hst.
    destruct (stale_path_posts req2 next2 e2 w2 _ Hs2 Hst) as [rest H].
    + cbn [expires_at]. now apply seconds_are_stale.
    + exists rest. rewrite H, Htbl. reflexivity.
Qed.

(** C6. The staleness test is [Date.now() > t - 60000], where [t] is the
    time value of [new Date(expires_at)]: for a number, the number itself,
    taken as milliseconds.  The middleware decides by it, both ways: it
    posts to the token endpoint when the test is true and hands on the
    stored token without any such call when it is false.  A refresh stores
    the answer's [expires_at] as it came.  So when the record's [expires_at]
    counts seconds, the test is true at every present-day call time and the
    request takes the refresh path. *)
Theorem epoch_seconds_expiry_always_refreshes req next e w r s :
  query_succeeds e SelectAuth ->
  stored (table w) = Some r ->
  expires_at r = CNum s ->
  epoch_seconds s ->
  present_day (clock e) ->
  (forall now v,
      expired_or_soon now v = true <->
      exists t, Date_getTime v = Some t /\ now > t - 60000) /\
  (forall now n,
      Z.abs n <= 8640000000000000 ->
      Date_getTime (CNum n) = Some n /\
      expired_or_soon now (CNum n) = (now >? n - 60000)) /\
  (forall req1 next1 e1 w1 r1,
      query_succeeds e1 SelectAuth ->
      stored (table w1) = Some r1 ->
      (expired_or_soon (clock e1) (expires_at r1) = true ->
       exists rest,
         trace (fst (run e1 (ensureAccessToken req1 next1) w1)) =
         (trace w1 ++ query_events SelectAuth (table w1)
          ++ [Event DateNow (clock e1);
              Event (AxiosPostToken token_url refresh_request)
                (token_endpoint e1 token_url refresh_request)]
          ++ rest)%list) /\
      (expired_or_soon (clock e1) (expires_at r1) = false ->
       exists req',
         accessToken req' = of_column (access_token r1) /\
         run e1 (ensureAccessToken req1 next1) w1 =
         run e1 (try_catch (next1 req') ensureAccessToken_catch)
           {| table := table w1;
              trace := (trace w1 ++ query_events SelectAuth (table w1)
                        ++ [Event DateNow (clock e1)])%list |})) /\
  (forall d,
     token_endpoint e token_url refresh_request = inr (Some d) ->
     query_succeeds e (write_of d) ->
     option_map expires_at
       (stored (table (fst (run e authenticateWithStrava w)))) =
     Some (rs_expires_at d)) /\
  expired_or_soon (clock e) (expires_at r) = true /\
  (exists rest,
     trace (fst (run e (ensureAccessToken req next) w)) =
     (trace w ++ query_events SelectAuth (table w)
      ++ [Event DateNow (clock e);
          Event (AxiosPostToken token_url refresh_request)
            (token_endpoint e token_url refresh_request)]
      ++ rest)%list).
Proof.
  intros Hs Hr He Hsec Hnow.
  assert (Hx : expired_or_soon (clock e) (expires_at r) = true).
  { rewrite He. now apply seconds_are_stale. }
  split; [| split; [| split; [| split; [| split]]]].
  - apply expired_or_soon_spec.
  - intros now n Hn. split; [| now apply expired_or_soon_number].
    unfold Date_getTime, TimeClip.
    destruct (Z.leb_spec (Z.abs n) 8640000000000000); [reflexivity | lia].
  - intros req1 next1 e1 w1 r1 Hs1 Hr1. split; intro Hx1.
    + now apply (stale_path_posts req1 next1 e1 w1 r1).
    + exists (set_accessToken req1 (of_column (access_token r1))).
      split; [reflexivity |].
      rewrite (run_ensureAccessToken_read _ _ _ _ _ Hs1 Hr1), Hx1.
      reflexivity.
  - intros d Hd Hw. rewrite (run_authenticate_ok _ _ _ Hd Hw). cbn [fst table].
    now rewrite (stored_after_write d _ _ Hr).
  - exact Hx.
  - now apply (stale_path_posts req next e w r).
Qed.

(** C7. If the exchange succeeds but the UPDATE fails (no connection, or
    the statement is refused), [authenticateWithStrava] throws the store's
    error; the middleware answers 500 with the generic body and does not
    call [next], so the new access token is never attached to the request;
    the table is unchanged. *)
Theorem failed_write_withholds_new_token req next e w r d err evs :
  query_succeeds e SelectAuth ->
  stored (table w) = Some r ->
  expired_or_soon (clock e) (expires_at r) = true ->
  token_endpoint e token_url refresh_request = inr (Some d) ->
  query_fails e (write_of d) err evs ->
  snd (run e authenticateWithStrava w) = inl err /\
  run e (ensureAccessToken req next) w =
  ({| table := table w;
      trace := (trace w ++ query_events SelectAuth (table w)
                ++ [Event DateNow (clock e);
                    Event (AxiosPostToken token_url refresh_request) (inr (Some d))]
                ++ evs
                ++ [auth_log err;
                    Event (ResJson 500 internal_server_error) tt])%list |},
   inr tt).
Proof.
  intros Hs Hr Hx Hd Hw. split.
  - now rewrite (run_authenticate_write_fails _ _ _ _ _ Hd Hw).
  - rewrite (run_ensureAccessToken_stale _ _ _ _ _ Hs Hr Hx).
    rewrite (run_authenticate_write_fails _ _ _ _ _ Hd Hw).
    cbn. unfold step, log; cbn. rewrite <- !app_assoc. cbn.
    rewrite <- !app_assoc. reflexivity.
Qed.

Lemma stored_none tbl : stored tbl = None -> filter is_id1 tbl = [].
Proof. unfold stored. destruct (filter is_id1 tbl); [reflexivity | discriminate]. Qed.

Lemma run_ensureAccessToken_read_fails req next e w err evs :
  query_fails e SelectAuth err evs ->
  run e (ensureAccessToken req next) w =
  (log w (evs ++ [Event (ResJson 500 internal_server_error) tt]), inr tt).
Proof.
  intro Hf. unfold ensureAccessToken.
  rewrite run_try_catch, run_bind, (run_executeQuery_fails _ _ _ _ _ Hf).
  cbn. unfold step; cbn. unfold log; cbn. now rewrite <- app_assoc.
Qed.

Lemma run_ensureAccessToken_no_record req next e w :
  query_succeeds e SelectAuth ->
  stored (table w) = None ->
  run e (ensureAccessToken req next) w =
  (log w (query_events SelectAuth (table w)
          ++ [Event (ResJson 500 internal_server_error) tt]), inr tt).
Proof.
  intros Hs Hn. unfold ensureAccessToken.
  rewrite run_try_catch, run_bind, (run_executeQuery_ok _ _ _ Hs).
  cbn [exec_sql fst snd first_row]. unfold stored in Hn. rewrite Hn.
  cbn. unfold step; cbn. unfold log; cbn. now rewrite <- app_assoc.
Qed.

(** C8, as the code has it.  When no record exists the read itself
    succeeds, with an empty result; the middleware then fails on the
    missing row and answers 500 with the generic body without calling
    [next].  When the store cannot be reached the read is rejected with the
    driver's error, and the middleware gives the very same answer.  Either
    way the request ends normally: nothing escapes the middleware. *)
Theorem missing_record_is_an_ordinary_failure req next e w :
  query_succeeds e SelectAuth ->
  stored (table w) = None ->
  run e (executeQuery SelectAuth) w =
  (log w (query_events SelectAuth (table w)), inr (RowData [])) /\
  run e (ensureAccessToken req next) w =
  (log w (query_events SelectAuth (table w)
          ++ [Event (ResJson 500 internal_server_error) tt]), inr tt) /\
  forall e' err evs,
    query_fails e' SelectAuth err evs ->
    run e' (executeQuery SelectAuth) w = (log w evs, inl err) /\
    run e' (ensureAccessToken req next) w =
    (log w (evs ++ [Event (ResJson 500 internal_server_error) tt]), inr tt).
Proof.
  intros Hs Hn. split; [| split].
  - rewrite (run_executeQuery_ok _ _ _ Hs). cbn [exec_sql fst snd].
    rewrite (stored_none _ Hn). reflexivity.
  - now apply run_ensureAccessToken_no_record.
  - intros e' err evs Hf. split.
    + apply (run_executeQuery_fails _ _ _ _ _ Hf).
    + apply (run_ensureAccessToken_read_fails _ _ _ _ _ _ Hf).
Qed.

(** ** Reading traces piecewise *)

Lemma responses_app l1 l2 :
  responses (l1 ++ l2) = (responses l1 ++ responses l2)%list.
Proof. unfold responses. apply flat_map_app. Qed.

Lemma api_requests_app l1 l2 :
  api_requests (l1 ++ l2) = (api_requests l1 ++ api_requests l2)%list.
Proof. unfold api_requests. apply flat_map_app. Qed.

Lemma token_posts_app l1 l2 :
  token_posts (l1 ++ l2) = (token_posts l1 ++ token_posts l2)%list.
Proof. unfold token_posts. apply flat_map_app. Qed.

Lemma no_failure_app l1 l2 :
  no_failure (l1 ++ l2) = no_failure l1 && no_failure l2.
Proof. unfold no_failure. apply forallb_app. Qed.

Lemma query_fails_quiet e q err evs :
  query_fails e q err evs ->
  responses evs = [] /\ api_requests evs = [] /\ token_posts evs = [].
Proof. intros [[_ ->] | [_ [_ ->]]]; cbn; auto. Qed.

(** ** The route handlers *)

(** A handler whose upstream request is answered passes the answer on. *)
Lemma handler_forwards r0 req e w data :
  (reads_body r0 = true -> destructurable (body req) = true) ->
  api_endpoint e (upstream_method r0)
    (stravaApiBaseUrl ++ upstream_path r0 (params_id req))
    (upstream_body r0 (body req)) (bearer req) = inr data ->
  run e (handler r0 req) w =
  (log w [Event (AxiosRequest (upstream_method r0)
                   (stravaApiBaseUrl ++ upstream_path r0 (params_id req))
                   (upstream_body r0 (body req)) (bearer req)) (inr data);
          Event (ResJson 200 data) tt], inr tt).
Proof.
  intros Hb Ha.
  destruct r0; cbn [handler reads_body] in *;
    try (specialize (Hb eq_refl));
    unfold get_athlete, post_activities, get_activity, get_activity_comments,
      get_athlete_activities, put_activity, destructure;
    try rewrite Hb;
    cbn [upstream_method upstream_path upstream_body] in *;
    unfold pick in *; cbn [map] in *;
    rewrite run_try_catch, ?run_bind; cbn [run bind]; rewrite ?run_bind;
    rewrite run_await; cbn [answer fst snd]; rewrite Ha;
    cbn; unfold step, log; cbn; rewrite <- ?app_assoc; reflexivity.
Qed.

Lemma handler_upstream_fails r0 req e w err :
  (reads_body r0 = true -> destructurable (body req) = true) ->
  api_endpoint e (upstream_method r0)
    (stravaApiBaseUrl ++ upstream_path r0 (params_id req))
    (upstream_body r0 (body req)) (bearer req) = inl err ->
  run e (handler r0 req) w =
  (log w [Event (AxiosRequest (upstream_method r0)
                   (stravaApiBaseUrl ++ upstream_path r0 (params_id req))
                   (upstream_body r0 (body req)) (bearer req)) (inl err);
          Event (ConsoleError (error_message r0) err) tt;
          Event (ResJson 500 internal_server_error) tt], inr tt).
Proof.
  intros Hb Ha.
  destruct r0; cbn [handler reads_body] in *;
    try (specialize (Hb eq_refl));
    unfold get_athlete, post_activities, get_activity, get_activity_comments,
      get_athlete_activities, put_activity, destructure;
    try rewrite Hb;
    cbn [upstream_method upstream_path upstream_body] in *;
    unfold pick in *; cbn [map] in *;
    rewrite run_try_catch, ?run_bind; cbn [run bind]; rewrite ?run_bind;
    rewrite run_await; cbn [answer fst snd]; rewrite Ha;
    cbn; unfold step, log; cbn; rewrite <- ?app_assoc; reflexivity.
Qed.

(** A handler that reads the body of a request that has none throws on
    the destructuring, before any request is made. *)
Lemma handler_without_body r0 req e w :
  reads_body r0 = true ->
  destructurable (body req) = false ->
  run e (handler r0 req) w =
  (log w [Event (ConsoleError (error_message r0)
                   (TypeError
                      "Cannot destructure property of undefined or null")) tt;
          Event (ResJson 500 internal_server_error) tt], inr tt).
Proof.
  intros Hr Hb.
  destruct r0; try discriminate Hr; cbn [handler];
    unfold post_activities, put_activity, destructure; rewrite Hb;
    cbn; unfold step, log; cbn; rewrite <- ?app_assoc; reflexivity.
Qed.

(** Every handler ends normally, having answered once and left the table
    alone. *)
Lemma handler_answers r0 req e w :
  exists evs,
    run e (handler r0 req) w = (log w evs, inr tt) /\ answered_once evs.
Proof.
  destruct (reads_body r0 && negb (destructurable (body req))) eqn:Hcase.
  - apply andb_true_iff in Hcase as [Hr Hb]. apply negb_true_iff in Hb.
    eexists. split; [apply (handler_without_body _ _ _ _ Hr Hb) |].
    left. reflexivity.
  - assert (Hb : reads_body r0 = true -> destructurable (body req) = true).
    { intro Hr. rewrite Hr in Hcase. cbn in Hcase.
      now apply negb_false_iff in Hcase. }
    destruct (api_endpoint e (upstream_method r0)
                (stravaApiBaseUrl ++ upstream_path r0 (params_id req))
                (upstream_body r0 (body req)) (bearer req))
      as [err | data] eqn:Ha.
    + eexists. split; [apply (handler_upstream_fails _ _ _ _ _ Hb Ha) |].
      left. reflexivity.
    + eexists. split; [apply (handler_forwards _ _ _ _ _ Hb Ha) |].
      right. exists data. split; reflexivity.
Qed.

(** ** Every request is answered *)

Lemma query_outcome e q :
  query_succeeds e q \/ exists err evs, query_fails e q err evs.
Proof.
  unfold query_succeeds, query_fails.
  destruct (getConnection_err e q) as [err |] eqn:Hc.
  - right. exists err. eexists. left. split; reflexivity.
  - destruct (query_err e q) as [err |] eqn:Hq.
    + right. exists err. eexists. right. repeat split; reflexivity.
    + left. split; reflexivity.
Qed.

Lemma run_ensureAccessToken_not_stale req next e w r :
  query_succeeds e SelectAuth ->
  stored (table w) = Some r ->
  expired_or_soon (clock e) (expires_at r) = false ->
  run e (ensureAccessToken req next) w =
  run e (try_catch (next (set_accessToken req (of_column (access_token r))))
           ensureAccessToken_catch)
      {| table := table w;
         trace := (trace w ++ query_events SelectAuth (table w)
                   ++ [Event DateNow (clock e)])%list |}.
Proof.
  intros Hs Hr Hx.
  rewrite (run_ensureAccessToken_read _ _ _ _ _ Hs Hr), Hx. reflexivity.
Qed.

(** The middleware either answers 500 itself, without calling [next], or
    calls [next] with a token after effects none of which failed. *)
Lemma ensureAccessToken_outcome req next e w :
  (exists evs,
     run e (ensureAccessToken req next) w =
     (log w (evs ++ [Event (ResJson 500 internal_server_error) tt]), inr tt) /\
     responses evs = [] /\ api_requests evs = []) \/
  (exists evs tbl' tok,
     run e (ensureAccessToken req next) w =
     run e (try_catch (next (set_accessToken req tok)) ensureAccessToken_catch)
       {| table := tbl'; trace := (trace w ++ evs)%list |} /\
     responses evs = [] /\ api_requests evs = [] /\ no_failure evs = true).
Proof.
  destruct (query_outcome e SelectAuth) as [Hs | [err [evs Hf]]].
  2:{ left. exists evs. split.
      - apply (run_ensureAccessToken_read_fails _ _ _ _ _ _ Hf).
      - destruct (query_fails_quiet _ _ _ _ Hf) as [? [? ?]]. now split. }
  destruct (stored (table w)) as [r |] eqn:Hr.
  2:{ left. eexists. split.
      - apply (run_ensureAccessToken_no_record _ _ _ _ Hs Hr).
      - split; reflexivity. }
  destruct (expired_or_soon (clock e) (expires_at r)) eqn:Hx.
  2:{ right. eexists. exists (table w), (of_column (access_token r)). split.
      - apply (run_ensureAccessToken_not_stale _ _ _ _ _ Hs Hr Hx).
      - repeat split; reflexivity. }
  destruct (token_endpoint e token_url refresh_request)
    as [err | [d |]] eqn:Hd.
  { left.
    exists (query_events SelectAuth (table w)
            ++ [Event DateNow (clock e);
                Event (AxiosPostToken token_url refresh_request) (inl err);
                auth_log err])%list.
    split.
    - rewrite (run_ensureAccessToken_stale _ _ _ _ _ Hs Hr Hx).
      rewrite (run_authenticate_rejected _ _ _ Hd).
      cbn. unfold step, log; cbn. rewrite <- !app_assoc. reflexivity.
    - split; reflexivity. }
  2:{ left.
      exists (query_events SelectAuth (table w)
              ++ [Event DateNow (clock e);
                  Event (AxiosPostToken token_url refresh_request) (inr None);
                  auth_log no_response_data])%list.
      split.
      - rewrite (run_ensureAccessToken_stale _ _ _ _ _ Hs Hr Hx).
        rewrite (run_authenticate_malformed _ _ Hd).
        cbn. unfold step, log; cbn. rewrite <- !app_assoc. reflexivity.
      - split; reflexivity. }
  destruct (query_outcome e (write_of d)) as [Hw | [err [evs Hf]]].
  - right. eexists. eexists. exists (rs_access_token d). split.
    + apply (run_ensureAccessToken_refreshed _ _ _ _ _ _ Hs Hr Hx Hd Hw).
    + repeat split; reflexivity.
  - left.
    exists (query_events SelectAuth (table w)
            ++ [Event DateNow (clock e);
                Event (AxiosPostToken token_url refresh_request) (inr (Some d))]
            ++ evs ++ [auth_log err])%list.
    split.
    + rewrite (run_ensureAccessToken_stale _ _ _ _ _ Hs Hr Hx).
      rewrite (run_authenticate_write_fails _ _ _ _ _ Hd Hf).
      cbn. unfold step, log; cbn. rewrite <- !app_assoc. cbn.
      rewrite <- !app_assoc. reflexivity.
    + destruct (query_fails_quiet _ _ _ _ Hf) as [H1 [H2 _]].
      rewrite !responses_app, !api_requests_app, H1, H2. split; reflexivity.
Qed.

(** C9. For every route and every request, whatever the environment does:
    nothing escapes (neither the handler nor the middleware ends with an
    uncaught error), exactly one response is sent, and it is either 500 with
    the generic body or 200; whenever an awaited effect failed (the SELECT,
    the token exchange, the UPDATE or the upstream request), or no record
    was found, it is 500 with the generic body. *)
Theorem every_failure_is_a_generic_500 r0 req e w :
  snd (run e (handler r0 req) w) = inr tt /\
  snd (run e (ensureAccessToken req (handler r0)) w) = inr tt /\
  exists evs,
    trace (fst (run e (ensureAccessToken req (handler r0)) w)) =
    (trace w ++ evs)%list /\
    answered_once evs /\
    (no_failure evs = false -> responses evs = [(500, internal_server_error)]) /\
    (query_succeeds e SelectAuth -> stored (table w) = None ->
     responses evs = [(500, internal_server_error)]).
Proof.
  split.
  { destruct (handler_answers r0 req e w) as [evs [H _]]. now rewrite H. }
  assert (Hfail : forall evs, answered_once evs -> no_failure evs = false ->
                              responses evs = [(500, internal_server_error)]).
  { intros evs [H | [data [_ H]]] Hn; [exact H | congruence]. }
  assert (Hnone : forall evs,
             trace (fst (run e (ensureAccessToken req (handler r0)) w)) =
             (trace w ++ evs)%list ->
             query_succeeds e SelectAuth -> stored (table w) = None ->
             responses evs = [(500, internal_server_error)]).
  { intros evs Htr Hs Hn.
    rewrite (run_ensureAccessToken_no_record _ _ _ _ Hs Hn) in Htr.
    cbn [fst log trace] in Htr. apply app_inv_head in Htr. subst evs.
    rewrite responses_app. reflexivity. }
  destruct (ensureAccessToken_outcome req (handler r0) e w)
    as [[evs [Hrun [Hresp Hapi]]] | [evs [tbl' [tok [Hrun [Hresp [Hapi Hok]]]]]]].
  - split; [now rewrite Hrun |].
    exists (evs ++ [Event (ResJson 500 internal_server_error) tt])%list.
    assert (Ha : responses (evs ++ [Event (ResJson 500 internal_server_error) tt])
                 = [(500, internal_server_error)]).
    { rewrite responses_app, Hresp. reflexivity. }
    assert (Htr : trace (fst (run e (ensureAccessToken req (handler r0)) w)) =
                  (trace w ++ evs
                   ++ [Event (ResJson 500 internal_server_error) tt])%list).
    { now rewrite Hrun. }
    split; [exact Htr |]. split; [now left |]. split; [intros _; exact Ha |].
    now apply Hnone.
  - destruct (handler_answers r0 (set_accessToken req tok) e
                {| table := tbl'; trace := (trace w ++ evs)%list |})
      as [evs' [Hh Hans]].
    assert (Hrun' : run e (ensureAccessToken req (handler r0)) w =
                    ({| table := tbl';
                        trace := (trace w ++ evs ++ evs')%list |}, inr tt)).
    { rewrite Hrun, run_try_catch, Hh. unfold log; cbn.
      now rewrite app_assoc. }
    split; [now rewrite Hrun' |].
    exists (evs ++ evs')%list.
    assert (Hans' : answered_once (evs ++ evs')).
    { destruct Hans as [H | [data [H Hn]]].
      - left. now rewrite responses_app, Hresp, H.
      - right. exists data. split.
        + now rewrite responses_app, Hresp, H.
        + now rewrite no_failure_app, Hok, Hn. }
    assert (Htr : trace (fst (run e (ensureAccessToken req (handler r0)) w)) =
                  (trace w ++ evs ++ evs')%list) by now rewrite Hrun'.
    split; [exact Htr |]. split; [exact Hans' |].
    split; [now apply Hfail | now apply Hnone].
Qed.

(** ** Forwarding *)

(** With a usable stored token and an upstream that answers, every route
    whose handler gets past its reading of the request is a plain
    forward: one request to the route's fixed upstream URL, carrying the
    stored token as bearer, whose answer is sent on unchanged with status
    200.  For PUT /activities/:id the forwarded body is exactly [name] and
    [type] of [req.body]. *)
Lemma route_forwards r0 req e w r t data :
  (reads_body r0 = true -> destructurable (body req) = true) ->
  query_succeeds e SelectAuth ->
  stored (table w) = Some r ->
  Date_getTime (expires_at r) = Some t ->
  clock e <= t - 60000 ->
  api_endpoint e (upstream_method r0)
    (stravaApiBaseUrl ++ upstream_path r0 (params_id req))
    (upstream_body r0 (body req)) ("Bearer " ++ to_string (of_column (access_token r))) = inr data ->
  run e (ensureAccessToken req (handler r0)) w =
  ({| table := table w;
      trace := (trace w ++ query_events SelectAuth (table w)
                ++ [Event DateNow (clock e);
                    Event (AxiosRequest (upstream_method r0)
                             (stravaApiBaseUrl
                              ++ upstream_path r0 (params_id req))
                             (upstream_body r0 (body req))
                             ("Bearer " ++ to_string (of_column (access_token r)))) (inr data);
                    Event (ResJson 200 data) tt])%list |}, inr tt).
Proof.
  intros Hb Hs Hr Ht Hle Ha.
  rewrite (run_ensureAccessToken_fresh _ _ _ _ _ _ Hs Hr Ht Hle).
  rewrite run_try_catch.
  rewrite (handler_forwards r0 (set_accessToken req (of_column (access_token r))) e _ data
             Hb Ha).
  unfold log; cbn. rewrite <- !app_assoc. reflexivity.
Qed.

(** C10. The application as it is assembled installs no body parser, so
    the request object of every request has [body] undefined.  The handlers
    of PUT /activities/:id and POST /activities destructure [req.body]
    before they call axios: for every such request, whatever entity the
    client sent and whatever the environment does, no request at all is
    forwarded to the Strava API and the client is answered 500 with the
    generic body. *)
Theorem body_routes_are_never_forwarded h e w :
  reads_body (hr_route h) = true ->
  exists evs,
    trace (fst (run e (app h) w)) = (trace w ++ evs)%list /\
    api_requests evs = [] /\
    responses evs = [(500, internal_server_error)].
Proof.
  intro Hb. unfold app.
  destruct (ensureAccessToken_outcome (express_request h)
              (handler (hr_route h)) e w)
    as [[evs [Hrun [Hresp Hapi]]] | [evs [tbl' [tok [Hrun [Hresp [Hapi _]]]]]]].
  - exists (evs ++ [Event (ResJson 500 internal_server_error) tt])%list.
    rewrite Hrun. cbn [fst log trace]. split; [reflexivity |].
    rewrite api_requests_app, responses_app, Hapi, Hresp. split; reflexivity.
  - rewrite Hrun, run_try_catch.
    rewrite (handler_without_body (hr_route h)
               (set_accessToken (express_request h) tok) e _ Hb eq_refl).
    eexists. cbn [fst log trace]. split; [now rewrite <- app_assoc |].
    rewrite api_requests_app, responses_app, Hapi, Hresp. split; reflexivity.
Qed.

(** ** Requests in flight together *)

(** Turn by turn or in one go, a request served alone does the same. *)
Lemma flush_run {A} (e : env) (p : prog A) :
  forall w, run e p w = run e (snd (flush e p w)) (fst (flush e p w)).
Proof.
  induction p as [a | err | T op k IH]; intro w; cbn; try reflexivity.
  destruct (is_await op); [reflexivity |].
  destruct (step e op w) as [w' x]. apply IH.
Qed.

Lemma turn_run {A} (e : env) (p : prog A) w :
  run e p w = run e (snd (turn e p w)) (fst (turn e p w)).
Proof.
  rewrite (flush_run e p w). unfold turn.
  destruct (flush e p w) as [w1 [a | err | T op k]]; cbn [fst snd];
    try reflexivity.
  cbn [run]. destruct (step e op w1) as [w2 x]. apply flush_run.
Qed.

(** The six turns of a request for GET /athlete that finds the record
    stale and refreshes it without mishap. *)
Lemma refreshing_turns e r d :
  refreshing r e d ->
  exists P1 P2 P3 P4 P5,
    (forall w,
        turn e (app athlete_request) w =
        (log w [Event (PoolGetConnection SelectAuth) None], P1)) /\
    (forall w,
        stored (table w) = Some r ->
        turn e P1 w =
        (log w [Event (ConnectionQuery SelectAuth)
                  (inr (RowData (filter is_id1 (table w))));
                Event ConnectionRelease tt;
                Event DateNow (clock e)], P2)) /\
    (forall w,
        turn e P2 w =
        (log w [Event (AxiosPostToken token_url refresh_request) (inr (Some d))],
         P3)) /\
    (forall w,
        turn e P3 w =
        (log w [Event (PoolGetConnection (write_of d)) None], P4)) /\
    (forall w,
        turn e P4 w =
        ({| table := turn_effect 4 d (table w);
            trace := (trace w
                      ++ [Event (ConnectionQuery (write_of d))
                            (inr (OkPacket
                                    (List.length (filter is_id1 (table w)))));
                          Event ConnectionRelease tt])%list |}, P5)) /\
    (forall w,
        turn e P5 w =
        (log w (Event (AxiosRequest GET athlete_url None
                         ("Bearer " ++ to_string (rs_access_token d)))
                  (api_endpoint e GET athlete_url None
                     ("Bearer " ++ to_string (rs_access_token d)))
                  :: athlete_answer
                       (api_endpoint e GET athlete_url None
                          ("Bearer " ++ to_string (rs_access_token d)))),
         Ret tt)).
Proof.
  intros [[Hc Hq] [Hx [Hd [Hc2 Hq2]]]].
  unfold token_url, refresh_request, write_of, athlete_url in *.
  do 5 eexists. split; [| split; [| split; [| split; [| split]]]].
  - intros w. unfold app, athlete_request, express_request.
    cbn [hr_route hr_id handler]. unfold ensureAccessToken, executeQuery.
    turn_step. unfold log; cbn. reflexivity.
  - intros w Hr. unfold stored in Hr. turn_step.
    destruct (filter is_id1 (table w)) as [| r0 rest] eqn:Hf; [discriminate |].
    cbn in Hr. inversion Hr; subst r0; clear Hr. turn_step.
    rewrite <- !app_assoc. unfold log; cbn. reflexivity.
  - intros w. turn_step. unfold log; cbn. reflexivity.
  - intros w. turn_step. unfold log; cbn. reflexivity.
  - intros w. turn_step. rewrite <- !app_assoc. cbn. reflexivity.
  - intros w. turn_step.
    destruct (api_endpoint e GET _ None _) as [err | data]; turn_step;
      rewrite <- !app_assoc; unfold log; cbn; reflexivity.
Qed.

Lemma turn_task_eq t tbl w' p' :
  turn (t_env t) (t_prog t) {| table := tbl; trace := t_trace t |} = (w', p') ->
  turn_task t tbl =
  ({| t_env := t_env t; t_prog := p'; t_trace := trace w' |}, table w').
Proof. intro H. unfold turn_task. now rewrite H. Qed.

Lemma alone_S p e tbl0 j :
  alone p e tbl0 (S j) =
  turn_task (fst (alone p e tbl0 j)) (snd (alone p e tbl0 j)).
Proof. reflexivity. Qed.

(** A refreshing request takes each of its six turns among others as it
    does alone, as long as the table looks the same to that turn. *)
Lemma refreshing_alone e r d tbl0 :
  refreshing r e d ->
  stored tbl0 = Some r ->
  (forall j tbl,
      (j < 6)%nat ->
      turn_cond j tbl0 tbl ->
      turn_task (fst (alone (app athlete_request) e tbl0 j)) tbl =
      (fst (alone (app athlete_request) e tbl0 (S j)), turn_effect j d tbl)) /\
  t_trace (fst (alone (app athlete_request) e tbl0 6)) =
  refresh_trace e d tbl0 /\
  t_prog (fst (alone (app athlete_request) e tbl0 6)) = Ret tt.
Proof.
  intros Href Hr.
  destruct (refreshing_turns e r d Href)
    as [P1 [P2 [P3 [P4 [P5 [T0 [T1 [T2 [T3 [T4 T5]]]]]]]]]].
  set (P0 := app athlete_request) in *.
  assert (step_alone : forall j t tbl w' p',
             alone P0 e tbl0 j = (t, tbl) ->
             t_env t = e ->
             turn e (t_prog t) {| table := tbl; trace := t_trace t |}
             = (w', p') ->
             alone P0 e tbl0 (S j) =
             ({| t_env := e; t_prog := p'; t_trace := trace w' |}, table w')).
  { intros j t tbl w' p' Ha He Ht. rewrite alone_S, Ha. cbn [fst snd].
    rewrite <- He in Ht. rewrite (turn_task_eq _ _ _ _ Ht). now rewrite He. }
  assert (A0 : alone P0 e tbl0 0 = (new_task P0 e, tbl0)) by reflexivity.
  pose proof (step_alone _ _ _ _ _ A0 eq_refl (T0 _)) as A1.
  pose proof (step_alone _ _ _ _ _ A1 eq_refl
                (T1 {| table := tbl0;
                       trace := [Event (PoolGetConnection SelectAuth) None] |}
                    Hr)) as A2.
  pose proof (step_alone _ _ _ _ _ A2 eq_refl (T2 _)) as A3.
  pose proof (step_alone _ _ _ _ _ A3 eq_refl (T3 _)) as A4.
  pose proof (step_alone _ _ _ _ _ A4 eq_refl (T4 _)) as A5.
  pose proof (step_alone _ _ _ _ _ A5 eq_refl (T5 _)) as A6.
  cbn [log table trace new_task t_env t_prog t_trace List.app]
    in A1, A2, A3, A4, A5, A6.
  split; [| split].
  - intros j tbl Hj Hc.
    assert (Hcase : (j = 0 \/ j = 1 \/ j = 2 \/ j = 3 \/ j = 4 \/ j = 5)%nat)
      by lia.
    destruct Hcase as [-> | [-> | [-> | [-> | [-> | ->]]]]]; cbn in Hc.
    + rewrite A0, A1. cbn [fst]. unfold turn_task.
      cbn [new_task t_env t_prog t_trace]. rewrite T0. reflexivity.
    + subst tbl. rewrite A1, A2. cbn [fst]. unfold turn_task.
      cbn [t_env t_prog t_trace]. rewrite T1 by exact Hr. reflexivity.
    + rewrite A2, A3. cbn [fst]. unfold turn_task.
      cbn [t_env t_prog t_trace]. rewrite T2. reflexivity.
    + rewrite A3, A4. cbn [fst]. unfold turn_task.
      cbn [t_env t_prog t_trace]. rewrite T3. reflexivity.
    + rewrite A4, A5. cbn [fst]. unfold turn_task.
      cbn [t_env t_prog t_trace]. rewrite T4. cbn [table trace].
      rewrite Hc. reflexivity.
    + rewrite A5, A6. cbn [fst]. unfold turn_task.
      cbn [t_env t_prog t_trace]. rewrite T5. reflexivity.
  - rewrite A6. cbn [fst t_trace]. unfold refresh_trace, query_events.
    cbn [exec_sql snd write_of]. reflexivity.
  - rewrite A6. reflexivity.
Qed.

(** Lock-step schedules are rounds. *)
Lemma turn_nth_app pre ts i tbl :
  turn_nth (List.length pre + i) (pre ++ ts)%list tbl =
  ((pre ++ fst (turn_nth i ts tbl))%list, snd (turn_nth i ts tbl)).
Proof.
  induction pre as [| t pre IH]; cbn [List.length List.app Nat.add turn_nth].
  - now destruct (turn_nth i ts tbl).
  - rewrite IH. reflexivity.
Qed.

Lemma run_schedule_app s1 s2 ts tbl :
  run_schedule (s1 ++ s2)%list ts tbl =
  run_schedule s2 (fst (run_schedule s1 ts tbl)) (snd (run_schedule s1 ts tbl)).
Proof.
  revert ts tbl. induction s1 as [| i s1 IH]; intros ts tbl; cbn.
  - reflexivity.
  - destruct (turn_nth i ts tbl) as [ts' tbl']. apply IH.
Qed.

Lemma run_schedule_seq ts :
  forall pre tbl,
    run_schedule (seq (List.length pre) (List.length ts)) (pre ++ ts)%list tbl =
    ((pre ++ fst (round ts tbl))%list, snd (round ts tbl)).
Proof.
  induction ts as [| t ts IH]; intros pre tbl; cbn [List.length seq run_schedule round].
  - reflexivity.
  - replace (List.length pre) with (List.length pre + 0)%nat at 1 by lia.
    rewrite turn_nth_app. cbn [turn_nth].
    destruct (turn_task t tbl) as [t' tbl1]. cbn [fst snd].
    specialize (IH (pre ++ [t'])%list tbl1).
    rewrite length_app in IH. cbn [List.length] in IH.
    replace (List.length pre + 1)%nat with (S (List.length pre)) in IH by lia.
    rewrite <- app_assoc in IH. cbn [List.app] in IH. rewrite IH.
    destruct (round ts tbl1) as [rest' tbl2]. cbn [fst snd].
    now rewrite <- app_assoc.
Qed.

Lemma round_length ts : forall tbl, List.length (fst (round ts tbl)) = List.length ts.
Proof.
  induction ts as [| t ts IH]; intro tbl; cbn; [reflexivity |].
  destruct (turn_task t tbl) as [t' tbl1]. specialize (IH tbl1).
  destruct (round ts tbl1) as [rest' tbl2]. cbn in *. now rewrite IH.
Qed.

Lemma lockstep_rounds k :
  forall ts tbl,
    run_schedule (lockstep (List.length ts) k) ts tbl = rounds k ts tbl.
Proof.
  induction k as [| k IH]; intros ts tbl; [reflexivity |].
  unfold lockstep. cbn [repeat List.concat rounds]. rewrite run_schedule_app.
  pose proof (run_schedule_seq ts [] tbl) as H. cbn [List.length List.app] in H.
  rewrite H. cbn [fst snd]. pose proof (round_length ts tbl) as Hlen.
  destruct (round ts tbl) as [ts' tbl']. cbn [fst snd] in *.
  rewrite <- Hlen. apply IH.
Qed.

(** The table keeps looking the same to a turn when another request
    takes that same turn first. *)
Lemma turn_cond_effect j d tbl0 tbl :
  turn_cond j tbl0 tbl -> turn_cond j tbl0 (turn_effect j d tbl).
Proof.
  destruct j as [| [| [| [| [| j]]]]]; cbn; auto.
  intro H. now rewrite filter_id1_set_triple, length_map.
Qed.

(** A round of refreshing requests, each at its [j]-th turn. *)
Lemma round_refreshing j r tbl0 eds :
  (j < 6)%nat ->
  stored tbl0 = Some r ->
  Forall (fun ed => refreshing r (fst ed) (snd ed)) eds ->
  forall tbl,
    turn_cond j tbl0 tbl ->
    round (map (fun ed => fst (alone (app athlete_request) (fst ed) tbl0 j)) eds)
      tbl =
    (map (fun ed => fst (alone (app athlete_request) (fst ed) tbl0 (S j))) eds,
     fold_left (fun tb ed => turn_effect j (snd ed) tb) eds tbl).
Proof.
  intros Hj Hr Hall. induction Hall as [| [e d] eds Href _ IH]; intros tbl Hc.
  - reflexivity.
  - cbn [map round fold_left fst snd] in *.
    destruct (refreshing_alone e r d tbl0 Href Hr) as [Hturn _].
    rewrite (Hturn j tbl Hj Hc).
    rewrite (IH _ (turn_cond_effect j d tbl0 tbl Hc)). reflexivity.
Qed.

Lemma fold_no_effect j eds tbl :
  j <> 4%nat ->
  fold_left (fun tb (ed : env * token_response) => turn_effect j (snd ed) tb)
    eds tbl = tbl.
Proof.
  intro Hj. induction eds as [| ed eds IH]; cbn [fold_left]; [reflexivity |].
  destruct j as [| [| [| [| [| j]]]]]; try exact IH. congruence.
Qed.

(** Six rounds of refreshing requests: each ends where it ends alone, and
    the table has taken every write in turn. *)
Lemma rounds_refreshing r tbl0 eds :
  stored tbl0 = Some r ->
  Forall (fun ed => refreshing r (fst ed) (snd ed)) eds ->
  rounds 6 (map (fun ed => new_task (app athlete_request) (fst ed)) eds) tbl0 =
  (map (fun ed => fst (alone (app athlete_request) (fst ed) tbl0 6)) eds,
   fold_left (fun tb ed => turn_effect 4 (snd ed) tb) eds tbl0).
Proof.
  intros Hr Hall.
  change (map (fun ed => new_task (app athlete_request) (fst ed)) eds)
    with (map (fun ed : env * token_response =>
                 fst (alone (app athlete_request) (fst ed) tbl0 0)) eds).
  cbn [rounds].
  rewrite (round_refreshing 0 r tbl0 eds ltac:(lia) Hr Hall tbl0 I).
  rewrite fold_no_effect by lia.
  rewrite (round_refreshing 1 r tbl0 eds ltac:(lia) Hr Hall tbl0 eq_refl).
  rewrite fold_no_effect by lia.
  rewrite (round_refreshing 2 r tbl0 eds ltac:(lia) Hr Hall tbl0 I).
  rewrite fold_no_effect by lia.
  rewrite (round_refreshing 3 r tbl0 eds ltac:(lia) Hr Hall tbl0 I).
  rewrite fold_no_effect by lia.
  rewrite (round_refreshing 4 r tbl0 eds ltac:(lia) Hr Hall tbl0 eq_refl).
  rewrite (round_refreshing 5 r tbl0 eds ltac:(lia) Hr Hall _ I).
  rewrite fold_no_effect by lia. reflexivity.
Qed.

Lemma alone_env p e tbl0 j : t_env (fst (alone p e tbl0 j)) = e.
Proof.
  induction j as [| j IH]; [reflexivity |].
  rewrite alone_S. unfold turn_task.
  destruct (turn _ _ _) as [w' p']. exact IH.
Qed.

Lemma alone_run p e tbl0 j :
  run e p {| table := tbl0; trace := [] |} =
  run e (t_prog (fst (alone p e tbl0 j)))
    {| table := snd (alone p e tbl0 j);
       trace := t_trace (fst (alone p e tbl0 j)) |}.
Proof.
  induction j as [| j IH]; [reflexivity |].
  rewrite IH, alone_S. rewrite (turn_run e). unfold turn_task.
  rewrite (alone_env p e tbl0 j).
  destruct (turn e _ _) as [w' p']. destruct w'. reflexivity.
Qed.

Lemma refresh_trace_reading e d tbl0 :
  token_posts (refresh_trace e d tbl0) = [refresh_request] /\
  api_requests (refresh_trace e d tbl0) =
  [(GET, athlete_url, None, "Bearer " ++ to_string (rs_access_token d))].
Proof.
  unfold refresh_trace.
  destruct (api_endpoint e GET athlete_url None _); split; reflexivity.
Qed.

(** C3, as the code has it.  Nothing serialises refreshes.  When [N]
    requests for GET /athlete are in flight together against a stale
    record and take their turns in lock-step (so that each has read the
    record before any has written), every one of them posts to the token
    endpoint: [N] refresh calls, one each.  Each request goes on with the
    access token of its own exchange, and does in all exactly what it does
    when served alone against the original record; the table ends up
    holding the triples written one over the other, in turn. *)
Theorem concurrent_callers_each_refresh r tbl0
  (eds : list (env * token_response)) :
  stored tbl0 = Some r ->
  Forall (fun ed => refreshing r (fst ed) (snd ed)) eds ->
  let final :=
    run_schedule (lockstep (List.length eds) 6)
      (map (fun ed => new_task (app athlete_request) (fst ed)) eds) tbl0 in
  map (fun t => token_posts (t_trace t)) (fst final) =
  map (fun _ => [refresh_request]) eds /\
  List.length (flat_map (fun t => token_posts (t_trace t)) (fst final)) =
  List.length eds /\
  map (fun t => api_requests (t_trace t)) (fst final) =
  map (fun ed => [(GET, athlete_url, @None js_value,
                   "Bearer " ++ to_string (rs_access_token (snd ed)))]) eds /\
  map t_trace (fst final) =
  map (fun ed => trace (fst (run (fst ed) (app athlete_request)
                               {| table := tbl0; trace := [] |}))) eds /\
  snd final =
  fold_left (fun tb ed =>
               map (set_triple (rs_access_token (snd ed))
                      (rs_refresh_token (snd ed)) (rs_expires_at (snd ed))) tb)
    eds tbl0.
Proof.
  intros Hr Hall final.
  assert (Hfinal : final =
    (map (fun ed => fst (alone (app athlete_request) (fst ed) tbl0 6)) eds,
     fold_left (fun tb ed => turn_effect 4 (snd ed) tb) eds tbl0)).
  { unfold final.
    replace (List.length eds)
      with (List.length (map (fun ed : env * token_response =>
                                new_task (app athlete_request) (fst ed)) eds))
      by apply length_map.
    rewrite lockstep_rounds. now apply (rounds_refreshing r). }
  rewrite Hfinal. cbn [fst snd].
  assert (Htr : forall ed, In ed eds ->
             t_trace (fst (alone (app athlete_request) (fst ed) tbl0 6)) =
             refresh_trace (fst ed) (snd ed) tbl0 /\
             t_prog (fst (alone (app athlete_request) (fst ed) tbl0 6)) =
             Ret tt).
  { intros [e d] Hin. rewrite Forall_forall in Hall.
    destruct (refreshing_alone e r d tbl0 (Hall _ Hin) Hr) as [_ H]. exact H. }
  assert (Hposts :
    map (fun t => token_posts (t_trace t))
      (map (fun ed => fst (alone (app athlete_request) (fst ed) tbl0 6)) eds) =
    map (fun _ => [refresh_request]) eds).
  { rewrite map_map. apply map_ext_in. intros ed Hin.
    destruct (Htr ed Hin) as [-> _]. apply refresh_trace_reading. }
  split; [exact Hposts |]. split; [| split; [| split]].
  - rewrite flat_map_concat_map, Hposts. clear.
    induction eds as [| ed eds IH]; cbn; [reflexivity | now rewrite IH].
  - rewrite map_map. apply map_ext_in. intros ed Hin.
    destruct (Htr ed Hin) as [-> _]. apply refresh_trace_reading.
  - rewrite map_map. apply map_ext_in. intros ed Hin.
    rewrite (alone_run (app athlete_request) (fst ed) tbl0 6).
    destruct (Htr ed Hin) as [_ Hp]. rewrite Hp. reflexivity.
  - reflexivity.
Qed.

(** * Beyond the token lifecycle *)

(** ** The shapes of a request *)

Lemma ensureAccessToken_trace req next e w :
  exists evs tbl' tok,
    middleware_trace e (table w) evs tbl' tok /\
    run e (ensureAccessToken req next) w =
    match tok with
    | None => ({| table := tbl'; trace := (trace w ++ evs)%list |}, inr tt)
    | Some t =>
        run e (try_catch (next (set_accessToken req t)) ensureAccessToken_catch)
          {| table := tbl'; trace := (trace w ++ evs)%list |}
    end.
Proof.
  destruct (query_outcome e SelectAuth) as [Hs | [err [evs Hf]]].
  2:{ do 2 eexists. exists None. split; [apply (MT_read_fails _ _ _ _ Hf) |].
      apply (run_ensureAccessToken_read_fails _ _ _ _ _ _ Hf). }
  destruct (stored (table w)) as [r |] eqn:Hr.
  2:{ do 2 eexists. exists None. split; [apply (MT_no_record _ _ Hs Hr) |].
      apply (run_ensureAccessToken_no_record _ _ _ _ Hs Hr). }
  destruct (expired_or_soon (clock e) (expires_at r)) eqn:Hx.
  2:{ do 2 eexists. exists (Some (of_column (access_token r))).
      split; [apply (MT_fresh _ _ _ Hs Hr Hx) |].
      apply (run_ensureAccessToken_not_stale _ _ _ _ _ Hs Hr Hx). }
  destruct (token_endpoint e token_url refresh_request)
    as [err | [d |]] eqn:Hd.
  { do 2 eexists. exists None.
    split; [apply (MT_rejected _ _ _ _ Hs Hr Hx Hd) |].
    rewrite (run_ensureAccessToken_stale _ _ _ _ _ Hs Hr Hx).
    rewrite (run_authenticate_rejected _ _ _ Hd).
    cbn. unfold step, log; cbn. rewrite <- !app_assoc. reflexivity. }
  2:{ do 2 eexists. exists None.
      split; [apply (MT_malformed _ _ _ Hs Hr Hx Hd) |].
      rewrite (run_ensureAccessToken_stale _ _ _ _ _ Hs Hr Hx).
      rewrite (run_authenticate_malformed _ _ Hd).
      cbn. unfold step, log; cbn. rewrite <- !app_assoc. reflexivity. }
  destruct (query_outcome e (write_of d)) as [Hw | [err [evs Hf]]].
  - do 2 eexists. exists (Some (rs_access_token d)).
    split; [apply (MT_refreshed _ _ _ _ Hs Hr Hx Hd Hw) |].
    apply (run_ensureAccessToken_refreshed _ _ _ _ _ _ Hs Hr Hx Hd Hw).
  - do 2 eexists. exists None.
    split; [apply (MT_write_fails _ _ _ _ _ _ Hs Hr Hx Hd Hf) |].
    rewrite (run_ensureAccessToken_stale _ _ _ _ _ Hs Hr Hx).
    rewrite (run_authenticate_write_fails _ _ _ _ _ Hd Hf).
    cbn. unfold step, log; cbn. rewrite <- !app_assoc. cbn.
    rewrite <- !app_assoc. reflexivity.
Qed.

Lemma handler_has_trace r0 req e w :
  exists evs,
    handler_trace e r0 req evs /\
    run e (handler r0 req) w = (log w evs, inr tt).
Proof.
  destruct (reads_body r0 && negb (destructurable (body req))) eqn:Hcase.
  - apply andb_true_iff in Hcase as [Hr Hb]. apply negb_true_iff in Hb.
    eexists. split; [apply (HT_no_body _ _ _ Hr Hb) |].
    apply (handler_without_body _ _ _ _ Hr Hb).
  - assert (Hb : reads_body r0 = true -> destructurable (body req) = true).
    { intro Hr. rewrite Hr in Hcase. cbn in Hcase.
      now apply negb_false_iff in Hcase. }
    destruct (api_endpoint e (upstream_method r0)
                (stravaApiBaseUrl ++ upstream_path r0 (params_id req))
                (upstream_body r0 (body req)) (bearer req))
      as [err | data] eqn:Ha.
    + eexists. split; [apply (HT_upstream_fails _ _ _ _ Hb Ha) |].
      apply (handler_upstream_fails _ _ _ _ _ Hb Ha).
    + eexists. split; [apply (HT_forwards _ _ _ _ Hb Ha) |].
      apply (handler_forwards _ _ _ _ _ Hb Ha).
Qed.

(** Every request of every route has one of these shapes and ends
    normally. *)
Lemma request_has_trace r0 req e w :
  exists evs tbl',
    request_trace e r0 req (table w) evs tbl' /\
    run e (ensureAccessToken req (handler r0)) w =
    ({| table := tbl'; trace := (trace w ++ evs)%list |}, inr tt).
Proof.
  destruct (ensureAccessToken_trace req (handler r0) e w)
    as [pre [tbl' [[t |] [Hm Hrun]]]].
  - destruct (handler_has_trace r0 (set_accessToken req t) e
                {| table := tbl'; trace := (trace w ++ pre)%list |})
      as [hev [Hh Hhrun]].
    exists (pre ++ hev)%list, tbl'. split.
    + exists pre, (Some t), hev. auto.
    + rewrite Hrun, run_try_catch, Hhrun. unfold log; cbn.
      now rewrite app_assoc.
  - exists pre, tbl'. split.
    + exists pre, None, []. rewrite app_nil_r. auto.
    + exact Hrun.
Qed.

(** ** Connections *)

Lemma count_app f l1 l2 : count f (l1 ++ l2) = (count f l1 + count f l2)%nat.
Proof. unfold count. now rewrite filter_app, length_app. Qed.

Lemma query_fails_counts e q err evs :
  query_fails e q err evs ->
  count is_release evs = count is_acquire evs /\
  count is_statement evs = count is_acquire evs /\
  (count is_acquire evs <= 1)%nat.
Proof. intros [[_ ->] | [_ [_ ->]]]; cbn; auto. Qed.

Lemma middleware_counts e tbl pre tbl' tok :
  middleware_trace e tbl pre tbl' tok ->
  count is_release pre = count is_acquire pre /\
  count is_statement pre = count is_acquire pre /\
  (count is_acquire pre <= 2)%nat.
Proof.
  intro Hm. inversion Hm; subst; clear Hm;
    repeat match goal with
           | H : query_fails _ _ _ _ |- _ =>
               apply query_fails_counts in H; destruct H as [? [? ?]]
           end;
    rewrite !count_app; unfold query_events, auth_log; cbn; lia.
Qed.

Lemma handler_counts e r0 req hev :
  handler_trace e r0 req hev ->
  count is_release hev = 0%nat /\ count is_acquire hev = 0%nat /\
  count is_statement hev = 0%nat.
Proof. intro Hh. inversion Hh; subst; cbn; auto. Qed.

(** X1. No request leaks a connection.  For every route, request and
    environment, every connection the pool hands out during the request is
    released, exactly one statement is run on each, and a request takes at
    most two connections (one for the SELECT, one for the UPDATE). *)
Theorem connections_are_released r0 req e w :
  exists evs,
    trace (fst (run e (ensureAccessToken req (handler r0)) w)) =
    (trace w ++ evs)%list /\
    count is_release evs = count is_acquire evs /\
    count is_statement evs = count is_acquire evs /\
    (count is_acquire evs <= 2)%nat.
Proof.
  destruct (request_has_trace r0 req e w)
    as [evs [tbl' [[pre [tok [hev [-> [Hm Hh]]]]] Hrun]]].
  exists (pre ++ hev)%list. rewrite Hrun. split; [reflexivity |].
  destruct (middleware_counts _ _ _ _ _ Hm) as [H1 [H2 H3]].
  assert (Hz : count is_release hev = 0%nat /\ count is_acquire hev = 0%nat /\
               count is_statement hev = 0%nat).
  { destruct tok as [t |]; [apply (handler_counts _ _ _ _ Hh) |].
    subst hev. cbn. auto. }
  destruct Hz as [Z1 [Z2 Z3]]. rewrite !count_app. lia.
Qed.

(** ** The store *)

(** X3. What a request can do to the table.  For every route, request and
    environment: when the SELECT succeeds, the record read is stale, the
    token endpoint answers with data and the UPDATE succeeds, the table
    after the request is the table before it with the answer's triple
    written into the rows of [id = 1]; in every other case it is the table
    before, unchanged (a statement that fails is taken to change nothing).
    Nothing else is ever written. *)
Theorem store_changes_only_by_refresh r0 req e w :
  (exists r d,
      query_succeeds e SelectAuth /\
      stored (table w) = Some r /\
      expired_or_soon (clock e) (expires_at r) = true /\
      token_endpoint e token_url refresh_request = inr (Some d) /\
      query_succeeds e (write_of d) /\
      table (fst (run e (ensureAccessToken req (handler r0)) w)) =
      map (set_triple (rs_access_token d) (rs_refresh_token d)
             (rs_expires_at d)) (table w) /\
      stored (table (fst (run e (ensureAccessToken req (handler r0)) w))) =
      Some (refreshed r d)) \/
  (~ (exists r d,
         query_succeeds e SelectAuth /\
         stored (table w) = Some r /\
         expired_or_soon (clock e) (expires_at r) = true /\
         token_endpoint e token_url refresh_request = inr (Some d) /\
         query_succeeds e (write_of d)) /\
   table (fst (run e (ensureAccessToken req (handler r0)) w)) = table w).
Proof.
  destruct (request_has_trace r0 req e w)
    as [evs [tbl' [[pre [tok [hev [-> [Hm Hh]]]]] Hrun]]].
  rewrite Hrun. cbn [fst table]. clear Hrun Hh.
  assert (Hfails : forall q err evs0,
             query_fails e q err evs0 -> ~ query_succeeds e q).
  { intros q err evs0 [[Hc _] | [_ [Hq _]]] [Hc' Hq']; congruence. }
  destruct Hm as [err evs0 Hf | Hs Hn | r Hs Hr Hx | r err Hs Hr Hx Hd
                 | r Hs Hr Hx Hd | r d err evs0 Hs Hr Hx Hd Hf
                 | r d Hs Hr Hx Hd Hw].
  - right. split; [| reflexivity].
    intros [r1 [d1 [Hs1 _]]]. exact (Hfails _ _ _ Hf Hs1).
  - right. split; [| reflexivity].
    intros [r1 [d1 [_ [Hr1 _]]]]. congruence.
  - right. split; [| reflexivity].
    intros [r1 [d1 [_ [Hr1 [Hx1 _]]]]]. congruence.
  - right. split; [| reflexivity].
    intros [r1 [d1 [_ [_ [_ [Hd1 _]]]]]]. congruence.
  - right. split; [| reflexivity].
    intros [r1 [d1 [_ [_ [_ [Hd1 _]]]]]]. congruence.
  - right. split; [| reflexivity].
    intros [r1 [d1 [_ [_ [_ [Hd1 Hw1]]]]]].
    assert (d1 = d) by congruence. subst d1. exact (Hfails _ _ _ Hf Hw1).
  - left. exists r, d. repeat split; try assumption; try apply Hs; try apply Hw.
    now apply stored_after_write.
Qed.

(** ** What is forwarded *)

Lemma middleware_quiet e tbl pre tbl' tok :
  middleware_trace e tbl pre tbl' tok ->
  api_requests pre = [] /\ (List.length (token_posts pre) <= 1)%nat.
Proof.
  intro Hm. inversion Hm; subst; clear Hm;
    repeat match goal with
           | H : query_fails _ _ _ _ |- _ =>
               apply query_fails_quiet in H; destruct H as [? [? ?]]
           end;
    rewrite ?api_requests_app, ?token_posts_app, ?length_app;
    repeat match goal with H : _ = [] |- _ => rewrite H end;
    unfold query_events, auth_log; cbn; auto.
Qed.

(** The token the middleware hands on is what the [access_token] column of
    a record it found fresh holds, or what the answer the token endpoint
    has just given holds as [access_token]. *)
Lemma middleware_token e tbl pre tbl' t :
  middleware_trace e tbl pre tbl' (Some t) ->
  (exists r, stored tbl = Some r /\
             expired_or_soon (clock e) (expires_at r) = false /\
             t = of_column (access_token r)) \/
  (exists d, token_endpoint e token_url refresh_request = inr (Some d) /\
             t = rs_access_token d).
Proof.
  intro Hm. inversion Hm; subst; clear Hm.
  - left. exists r. auto.
  - right. exists d. auto.
Qed.

(** X5. What reaches the Strava API.  For every route, request and
    environment a request posts to the token endpoint at most once and
    sends at most one request to the API; when it sends one, it is the
    route's own (its method, its URL, its body) and its bearer is spliced
    from the [access_token] column of the stored record, found fresh, or
    from the [access_token] of the answer the token endpoint gave during
    this very request.  Nothing checks that a token is there: a NULL
    column is sent as [Bearer null], an answer without [access_token] as
    [Bearer undefined]. *)
Theorem forwarded_requests_carry_a_token r0 req e w :
  exists evs,
    trace (fst (run e (ensureAccessToken req (handler r0)) w)) =
    (trace w ++ evs)%list /\
    (List.length (token_posts evs) <= 1)%nat /\
    (api_requests evs = [] \/
     exists t,
       api_requests evs =
       [(upstream_method r0,
         stravaApiBaseUrl ++ upstream_path r0 (params_id req),
         upstream_body r0 (body req), "Bearer " ++ to_string t)] /\
       ((exists r, stored (table w) = Some r /\
                   expired_or_soon (clock e) (expires_at r) = false /\
                   t = of_column (access_token r)) \/
        (exists d, token_endpoint e token_url refresh_request = inr (Some d) /\
                   t = rs_access_token d))) /\
    to_string (of_column None) = "null" /\
    to_string Undefined = "undefined".
Proof.
  destruct (request_has_trace r0 req e w)
    as [evs [tbl' [[pre [tok [hev [-> [Hm Hh]]]]] Hrun]]].
  exists (pre ++ hev)%list. rewrite Hrun. split; [reflexivity |].
  destruct (middleware_quiet _ _ _ _ _ Hm) as [Hapi Hposts].
  rewrite token_posts_app, api_requests_app, length_app, Hapi.
  split; [| split; [| split; reflexivity]].
  - destruct tok as [t |]; [inversion Hh; subst; cbn; lia |].
    subst hev. cbn. lia.
  - destruct tok as [t |].
    + pose proof (middleware_token _ _ _ _ _ Hm) as Ht.
      inversion Hh; subst; cbn [api_requests flat_map List.app].
      * left. reflexivity.
      * right. exists t. split; [reflexivity | exact Ht].
      * right. exists t. split; [reflexivity | exact Ht].
    + subst hev. left. reflexivity.
Qed.

(** A route that does not read the body sends a GET without one. *)
Lemma bodiless_route r0 b :
  reads_body r0 = false ->
  upstream_method r0 = GET /\ upstream_body r0 b = None.
Proof. destruct r0; cbn; intro H; try discriminate; auto. Qed.

(** X6. The four GET routes with a fresh token.  For GET /athlete,
    /activities/:id, /activities/:id/comments and /athlete/activities, when
    the stored token is fresh and the API answers, the request reads the
    record, sends one GET to the route's URL under [stravaApiBaseUrl] (the
    [:id] segment spliced in) with the stored access token as bearer and no
    body, and answers 200 with the API's data unchanged; the table is not
    touched. *)
Theorem get_routes_forward h e w r t data :
  reads_body (hr_route h) = false ->
  query_succeeds e SelectAuth ->
  stored (table w) = Some r ->
  Date_getTime (expires_at r) = Some t ->
  clock e <= t - 60000 ->
  api_endpoint e GET
    ("https://www.strava.com/api/v3" ++ upstream_path (hr_route h) (hr_id h))
    None ("Bearer " ++ to_string (of_column (access_token r))) = inr data ->
  run e (app h) w =
  ({| table := table w;
      trace := (trace w ++ query_events SelectAuth (table w)
                ++ [Event DateNow (clock e);
                    Event (AxiosRequest GET
                             ("https://www.strava.com/api/v3"
                              ++ upstream_path (hr_route h) (hr_id h))
                             None ("Bearer " ++ to_string (of_column (access_token r)))) (inr data);
                    Event (ResJson 200 data) tt])%list |}, inr tt).
Proof.
  intros Hb Hs Hr Ht Hle Ha. unfold app.
  destruct (bodiless_route (hr_route h) (body (express_request h)) Hb)
    as [Hm Hbody].
  rewrite (run_ensureAccessToken_fresh _ _ _ _ _ _ Hs Hr Ht Hle).
  rewrite run_try_catch.
  rewrite (handler_forwards (hr_route h)
             (set_accessToken (express_request h) (of_column (access_token r))) e _ data).
  - rewrite Hm. cbn [body set_accessToken express_request] in *.
    rewrite Hbody. unfold log; cbn. rewrite <- !app_assoc. reflexivity.
  - intro H. congruence.
  - rewrite Hm. cbn [body set_accessToken express_request] in *.
    rewrite Hbody. exact Ha.
Qed.

(** X7. The four GET routes after a refresh.  When the stored token is
    stale and the exchange, the UPDATE and the API all succeed, the request
    is forwarded with the new access token (not the stored one), the API's
    data is answered with status 200, and the table holds the new triple. *)
Theorem refreshed_get_routes_forward h e w r d data :
  reads_body (hr_route h) = false ->
  query_succeeds e SelectAuth ->
  stored (table w) = Some r ->
  expired_or_soon (clock e) (expires_at r) = true ->
  token_endpoint e token_url refresh_request = inr (Some d) ->
  query_succeeds e (write_of d) ->
  api_endpoint e GET
    ("https://www.strava.com/api/v3" ++ upstream_path (hr_route h) (hr_id h))
    None ("Bearer " ++ to_string (rs_access_token d)) = inr data ->
  run e (app h) w =
  ({| table := map (set_triple (rs_access_token d) (rs_refresh_token d)
                      (rs_expires_at d)) (table w);
      trace := (trace w ++ query_events SelectAuth (table w)
                ++ [Event DateNow (clock e);
                    Event (AxiosPostToken token_url refresh_request) (inr (Some d))]
                ++ query_events (write_of d) (table w)
                ++ [Event (AxiosRequest GET
                             ("https://www.strava.com/api/v3"
                              ++ upstream_path (hr_route h) (hr_id h))
                             None ("Bearer " ++ to_string (rs_access_token d))) (inr data);
                    Event (ResJson 200 data) tt])%list |}, inr tt).
Proof.
  intros Hb Hs Hr Hx Hd Hw Ha. unfold app.
  destruct (bodiless_route (hr_route h) (body (express_request h)) Hb)
    as [Hm Hbody].
  rewrite (run_ensureAccessToken_refreshed _ _ _ _ _ _ Hs Hr Hx Hd Hw).
  rewrite run_try_catch.
  rewrite (handler_forwards (hr_route h)
             (set_accessToken (express_request h) (rs_access_token d)) e _
             data).
  - rewrite Hm. cbn [body set_accessToken express_request] in *.
    rewrite Hbody. unfold log; cbn. rewrite <- ?app_assoc. cbn.
    rewrite <- ?app_assoc. reflexivity.
  - intro H. congruence.
  - rewrite Hm. cbn [body set_accessToken express_request] in *.
    rewrite Hbody. exact Ha.
Qed.

(** ** Expiries that are not dates, and time *)

(** X8. An expiry that does not read as a date.  When [new Date(expires_at)]
    is an invalid date (a [Date] object that is invalid, a number beyond
    the range of dates, a string [Date.parse] rejects), the comparison with
    NaN is false at every clock: the record is never judged stale, and the
    stored access token is handed on without any refresh, however old. *)
Theorem undated_token_is_never_refreshed req next e w r :
  query_succeeds e SelectAuth ->
  stored (table w) = Some r ->
  Date_getTime (expires_at r) = None ->
  exists req',
    accessToken req' = of_column (access_token r) /\
    params_id req' = params_id req /\
    body req' = body req /\
    run e (ensureAccessToken req next) w =
    run e (try_catch (next req') ensureAccessToken_catch)
      {| table := table w;
         trace := (trace w ++ query_events SelectAuth (table w)
                   ++ [Event DateNow (clock e)])%list |}.
Proof.
  intros Hs Hr Hn. exists (set_accessToken req (of_column (access_token r))).
  repeat split. apply (run_ensureAccessToken_not_stale _ _ _ _ _ Hs Hr).
  unfold expired_or_soon. now rewrite Hn.
Qed.

Lemma out_of_range_is_undated n :
  8640000000000000 < Z.abs n -> Date_getTime (CNum n) = None.
Proof.
  intro H. unfold Date_getTime, TimeClip.
  destruct (Z.leb_spec (Z.abs n) 8640000000000000); [lia | reflexivity].
Qed.

(** X9. A record without an expiry.  When [expires_at] is NULL,
    [new Date(null)] is the epoch, so at every clock after 1970 the record
    is judged stale and the request posts to the token endpoint. *)
Theorem null_expiry_always_refreshes req next e w r :
  query_succeeds e SelectAuth ->
  stored (table w) = Some r ->
  expires_at r = CNull ->
  0 <= clock e ->
  exists rest,
    trace (fst (run e (ensureAccessToken req next) w)) =
    (trace w ++ query_events SelectAuth (table w)
     ++ [Event DateNow (clock e);
         Event (AxiosPostToken token_url refresh_request)
           (token_endpoint e token_url refresh_request)]
     ++ rest)%list.
Proof.
  intros Hs Hr Hn Hc. apply (stale_path_posts req next e w r Hs Hr).
  rewrite Hn. unfold expired_or_soon; cbn. apply Z.gtb_gt. lia.
Qed.

Lemma expired_or_soon_mono v now now' :
  now <= now' ->
  expired_or_soon now v = true -> expired_or_soon now' v = true.
Proof.
  intros Hle. unfold expired_or_soon. destruct (Date_getTime v); [| auto].
  rewrite !Z.gtb_gt. lia.
Qed.

(** X10. Staleness does not heal.  If the test judges a record stale at
    some instant, it judges it stale at every later one: a request that
    reads that record at any later clock posts to the token endpoint.  Only
    a written refresh ends it. *)
Theorem staleness_does_not_heal req next e w r now :
  query_succeeds e SelectAuth ->
  stored (table w) = Some r ->
  expired_or_soon now (expires_at r) = true ->
  now <= clock e ->
  exists rest,
    trace (fst (run e (ensureAccessToken req next) w)) =
    (trace w ++ query_events SelectAuth (table w)
     ++ [Event DateNow (clock e);
         Event (AxiosPostToken token_url refresh_request)
           (token_endpoint e token_url refresh_request)]
     ++ rest)%list.
Proof.
  intros Hs Hr Hx Hle. apply (stale_path_posts req next e w r Hs Hr).
  apply (expired_or_soon_mono _ _ _ Hle Hx).
Qed.

(** ** What is logged *)

Lemma logged_app l1 l2 : logged (l1 ++ l2) = (logged l1 ++ logged l2)%list.
Proof. unfold logged. apply flat_map_app. Qed.

Lemma query_fails_silent e q err evs :
  query_fails e q err evs -> logged evs = [].
Proof. intros [[_ ->] | [_ [_ ->]]]; reflexivity. Qed.

(** X11. A failed read leaves no log line.  When the SELECT of the
    middleware fails (no connection, or the statement is refused) or finds
    no record, the request is answered 500 with the generic body and
    nothing is written with [console.error]; nothing is sent to the token
    endpoint or to the API either. *)
Theorem failed_read_is_not_logged r0 req e w :
  (exists err evs0, query_fails e SelectAuth err evs0) \/
  (query_succeeds e SelectAuth /\ stored (table w) = None) ->
  exists evs,
    run e (ensureAccessToken req (handler r0)) w =
    ({| table := table w; trace := (trace w ++ evs)%list |}, inr tt) /\
    logged evs = [] /\
    responses evs = [(500, internal_server_error)] /\
    token_posts evs = [] /\
    api_requests evs = [].
Proof.
  intros [[err [evs0 Hf]] | [Hs Hn]].
  - exists (evs0 ++ [Event (ResJson 500 internal_server_error) tt])%list.
    split; [apply (run_ensureAccessToken_read_fails _ _ _ _ _ _ Hf) |].
    destruct (query_fails_quiet _ _ _ _ Hf) as [H1 [H2 H3]].
    rewrite logged_app, responses_app, token_posts_app, api_requests_app,
      (query_fails_silent _ _ _ _ Hf), H1, H2, H3.
    repeat split; reflexivity.
  - eexists. split; [apply (run_ensureAccessToken_no_record _ _ _ _ Hs Hn) |].
    repeat split; reflexivity.
Qed.



(** ** The last write *)

Lemma stored_fold_writes (eds : list (env * token_response)) :
  forall r tbl,
    stored tbl = Some r ->
    exists r', stored (fold_left (fun tb ed => turn_effect 4 (snd ed) tb)
                         eds tbl) = Some r' /\ id r' = id r.
Proof.
  induction eds as [| [e d] eds IH]; intros r tbl Hr; cbn [fold_left].
  - exists r. auto.
  - destruct (IH _ _ (stored_after_write d _ _ Hr)) as [r' [H1 H2]].
    exists r'. split; [exact H1 | exact H2].
Qed.

(** X13. The last write wins.  When several requests for GET /athlete
    refresh a stale record together, in lock-step, the record left in the
    table holds the triple of the request that wrote last; the triples the
    others obtained are overwritten. *)
Theorem last_write_wins r tbl0 (eds : list (env * token_response)) e d :
  stored tbl0 = Some r ->
  Forall (fun ed => refreshing r (fst ed) (snd ed)) (eds ++ [(e, d)]) ->
  stored (snd (run_schedule (lockstep (List.length (eds ++ [(e, d)])) 6)
                 (map (fun ed => new_task (app athlete_request) (fst ed))
                    (eds ++ [(e, d)])) tbl0)) =
  Some (refreshed r d).
Proof.
  intros Hr Hall.
  replace (List.length (eds ++ [(e, d)]))
    with (List.length (map (fun ed : env * token_response =>
                              new_task (app athlete_request) (fst ed))
                         (eds ++ [(e, d)])))
    by apply length_map.
  rewrite lockstep_rounds, (rounds_refreshing r tbl0 _ Hr Hall).
  cbn [snd]. rewrite fold_left_app. cbn [fold_left snd turn_effect].
  destruct (stored_fold_writes eds r tbl0 Hr) as [r' [Hr' Hid]].
  transitivity (Some (refreshed r' d)).
  - exact (stored_after_write d _ _ Hr').
  - unfold refreshed. now rewrite Hid.
Qed.

(** ** Answers of the token endpoint that carry no token *)

Lemma get_route_sends h req e w :
  reads_body (hr_route h) = false ->
  exists hev,
    run e (handler (hr_route h) req) w = (log w hev, inr tt) /\
    api_requests hev =
    [(GET, (stravaApiBaseUrl ++ upstream_path (hr_route h) (params_id req))%string,
      None, bearer req)].
Proof.
  intro Hb.
  destruct (bodiless_route (hr_route h) (body req) Hb) as [Hm Hbody].
  destruct (handler_has_trace (hr_route h) req e w) as [hev [Hh Hrun]].
  exists hev. split; [exact Hrun |].
  inversion Hh; subst; try congruence; cbn; now rewrite Hm, Hbody.
Qed.

(** X14. An answer without a token is taken for a success.  When the
    record is stale and the token endpoint answers with data that lacks
    [access_token], nothing fails: the UPDATE writes NULL into the
    [access_token] column, [next] is called, and a GET route sends its
    request to the API with the header [Bearer undefined].  A later request
    that finds the record so written fresh sends [Bearer null], without
    any refresh. *)
Theorem answer_without_token_is_forwarded h e w r d :
  reads_body (hr_route h) = false ->
  query_succeeds e SelectAuth ->
  stored (table w) = Some r ->
  expired_or_soon (clock e) (expires_at r) = true ->
  token_endpoint e token_url refresh_request = inr (Some d) ->
  rs_access_token d = Undefined ->
  query_succeeds e (write_of d) ->
  let tbl' := map (set_triple Undefined (rs_refresh_token d)
                     (rs_expires_at d)) (table w) in
  (exists hev,
      run e (app h) w =
      ({| table := tbl';
          trace := (trace w ++ query_events SelectAuth (table w)
                    ++ [Event DateNow (clock e);
                        Event (AxiosPostToken token_url refresh_request)
                          (inr (Some d))]
                    ++ query_events (write_of d) (table w)
                    ++ hev)%list |}, inr tt) /\
      api_requests hev =
      [(GET,
        ("https://www.strava.com/api/v3"
         ++ upstream_path (hr_route h) (hr_id h))%string,
        None, "Bearer undefined")]) /\
  option_map access_token (stored tbl') = Some None /\
  forall h2 e2 w2 t,
    reads_body (hr_route h2) = false ->
    table w2 = tbl' ->
    query_succeeds e2 SelectAuth ->
    Date_getTime (rs_expires_at d) = Some t ->
    clock e2 <= t - 60000 ->
    exists hev,
      run e2 (app h2) w2 =
      ({| table := tbl';
          trace := (trace w2 ++ query_events SelectAuth tbl'
                    ++ [Event DateNow (clock e2)] ++ hev)%list |}, inr tt) /\
      api_requests hev =
      [(GET,
        ("https://www.strava.com/api/v3"
         ++ upstream_path (hr_route h2) (hr_id h2))%string,
        None, "Bearer null")].
Proof.
  intros Hb Hs Hr Hx Hd Hu Hw tbl'.
  pose proof (stored_after_write d _ _ Hr) as Hst.
  rewrite Hu in Hst. fold tbl' in Hst.
  split; [| split].
  - unfold app.
    rewrite (run_ensureAccessToken_refreshed _ _ _ _ _ _ Hs Hr Hx Hd Hw).
    rewrite run_try_catch, Hu. fold tbl'.
    match goal with |- context [run e (handler _ ?rq) ?w1] =>
      destruct (get_route_sends h rq e w1 Hb) as [hev [Hrun Hapi]]
    end.
    exists hev. rewrite Hrun. split.
    + unfold log; cbn [fst snd table trace]. rewrite <- !app_assoc.
      reflexivity.
    + exact Hapi.
  - rewrite Hst. unfold refreshed. rewrite Hu. reflexivity.
  - intros h2 e2 w2 t Hb2 Htbl Hs2 Ht Hle.
    rewrite <- Htbl in Hst.
    unfold app.
    rewrite (run_ensureAccessToken_fresh _ _ _ _ _ t Hs2 Hst);
      [| exact Ht | exact Hle].
    rewrite run_try_catch.
    match goal with |- context [run e2 (handler _ ?rq) ?w1] =>
      destruct (get_route_sends h2 rq e2 w1 Hb2) as [hev [Hrun Hapi]]
    end.
    exists hev. rewrite Hrun. split.
    + unfold log; cbn [fst snd table trace]. rewrite <- !app_assoc.
      rewrite Htbl. reflexivity.
    + rewrite Hapi. unfold refreshed. rewrite Hu. reflexivity.
Qed.

(** X15. An answer without data is a failure.  When the record is stale
    and the token endpoint answers with a [response.data] that is [null] or
    [undefined], the destructuring of line 47 throws a TypeError inside
    [authenticateWithStrava], whose own catch logs and rethrows it: no
    UPDATE is sent, the middleware answers 500 with the generic body and
    does not call [next]; the table is unchanged. *)
Theorem answer_without_data_is_a_failure req next e w r :
  query_succeeds e SelectAuth ->
  stored (table w) = Some r ->
  expired_or_soon (clock e) (expires_at r) = true ->
  token_endpoint e token_url refresh_request = inr None ->
  snd (run e authenticateWithStrava w) = inl no_response_data /\
  run e (ensureAccessToken req next) w =
  ({| table := table w;
      trace := (trace w ++ query_events SelectAuth (table w)
                ++ [Event DateNow (clock e);
                    Event (AxiosPostToken token_url refresh_request)
                      (inr None);
                    Event (ConsoleError "Error authenticating with Strava:"
                             (TypeError
                                "Cannot destructure property 'access_token'"))
                      tt;
                    Event (ResJson 500 internal_server_error) tt])%list |},
   inr tt).
Proof.
  intros Hs Hr Hx Hd. split.
  - now rewrite (run_authenticate_malformed _ _ Hd).
  - rewrite (run_ensureAccessToken_stale _ _ _ _ _ Hs Hr Hx).
    rewrite (run_authenticate_malformed _ _ Hd).
    cbn. unfold step, log; cbn. rewrite <- !app_assoc. reflexivity.
Qed.

End App.

(** * The properties at concrete inputs *)

Lemma fresh_seconds_record_is_refreshed_witness :
  now0 <= 1000 * 1700003600 - 60000 /\
  (exists rest,
     trace (fst (run (env_ok response2)
                   (ensureAccessToken config0 parse0 req0 next0)
                   (world_of [seconds_row]))) =
     ([Event (PoolGetConnection SelectAuth) None;
       Event (ConnectionQuery SelectAuth) (inr (RowData [seconds_row]));
       Event ConnectionRelease tt;
       Event DateNow now0;
       Event (AxiosPostToken token_url (refresh_request config0))
         (inr (Some response2))] ++ rest)%list) /\
  run (env_ok response2)
    (ensureAccessToken config0 parse0 req0 (handler GetAthlete))
    (world_of [fresh_row]) =
  ({| table := [fresh_row];
      trace := [Event (PoolGetConnection SelectAuth) None;
                Event (ConnectionQuery SelectAuth) (inr (RowData [fresh_row]));
                Event ConnectionRelease tt;
                Event DateNow now0;
                Event (AxiosRequest GET "https://www.strava.com/api/v3/athlete"
                         None "Bearer A1") (inr athlete);
                Event (ResJson 200 athlete) tt] |}, inr tt).
Proof.
  destruct (fresh_seconds_record_is_refreshed config0 parse0 req0 next0
              (env_ok response2) (world_of [seconds_row]) seconds_row
              1700003600
              (conj eq_refl eq_refl) eq_refl eq_refl
              ltac:(unfold epoch_seconds; lia)
              ltac:(unfold present_day; cbn; unfold now0; lia)
              ltac:(vm_compute; discriminate))
    as [Hpost Hfresh].
  split; [vm_compute; discriminate |].
  split; [exact Hpost |].
  destruct (Hfresh req0 (handler GetAthlete) (env_ok response2)
              (world_of [fresh_row]) fresh_row (now0 + 3600000)
              (conj eq_refl eq_refl) eq_refl eq_refl
              ltac:(vm_compute; discriminate))
    as [[p b a] [Ha [Hp [Hb Hrun]]]].
  cbn in Ha, Hp, Hb. subst a p b.
  exact (eq_trans Hrun eq_refl).
Defined.

Lemma refresh_sends_configured_access_token_witness :
  refresh_token stale_row = Some "R1" /\
  exists answer rest,
    trace (fst (run (env_ok response2)
                  (ensureAccessToken config0 parse0 req0 next0)
                  (world_of [stale_row]))) =
    ([Event (PoolGetConnection SelectAuth) None;
      Event (ConnectionQuery SelectAuth) (inr (RowData [stale_row]));
      Event ConnectionRelease tt;
      Event DateNow now0;
      Event (AxiosPostToken "https://www.strava.com/oauth/token"
               {| client_id := "12345";
                  client_secret := "client-secret";
                  grant_type := "refresh_token";
                  rq_refresh_token := "config-access-token" |}) answer]
     ++ rest)%list.
Proof.
  split; [reflexivity |].
  exact (refresh_sends_configured_access_token config0 parse0 req0 next0
           (env_ok response2) (world_of [stale_row]) stale_row
           (conj eq_refl eq_refl) eq_refl eq_refl).
Defined.

Lemma rejected_refresh_leaves_store_unchanged_witness :
  snd (run env_rejected (authenticateWithStrava config0)
         (world_of [stale_row])) = inl (AxiosError (Some 401)) /\
  run env_rejected (ensureAccessToken config0 parse0 req0 next0)
    (world_of [stale_row]) =
  ({| table := [stale_row];
      trace := [Event (PoolGetConnection SelectAuth) None;
                Event (ConnectionQuery SelectAuth) (inr (RowData [stale_row]));
                Event ConnectionRelease tt;
                Event DateNow now0;
                Event (AxiosPostToken token_url (refresh_request config0))
                  (inl (AxiosError (Some 401)));
                auth_log (AxiosError (Some 401));
                Event (ResJson 500 internal_server_error) tt] |}, inr tt).
Proof.
  destruct (rejected_refresh_leaves_store_unchanged config0 parse0 req0 next0
              env_rejected (world_of [stale_row]) stale_row
              (AxiosError (Some 401))
              (conj eq_refl eq_refl) eq_refl eq_refl eq_refl)
    as [H1 [H2 _]].
  exact (conj H1 H2).
Defined.

Lemma refreshed_seconds_record_is_refreshed_again_witness :
  run (env_ok response_seconds)
    (ensureAccessToken config0 parse0 req0 (handler GetAthlete))
    (world_of [stale_row]) =
  ({| table := [{| id := 1; access_token := Some "A2";
                   refresh_token := Some "R2";
                   expires_at := CNum 1700003600 |}];
      trace := [Event (PoolGetConnection SelectAuth) None;
                Event (ConnectionQuery SelectAuth) (inr (RowData [stale_row]));
                Event ConnectionRelease tt;
                Event DateNow now0;
                Event (AxiosPostToken token_url (refresh_request config0))
                  (inr (Some response_seconds));
                Event (PoolGetConnection (write_of response_seconds)) None;
                Event (ConnectionQuery (write_of response_seconds))
                  (inr (OkPacket 1));
                Event ConnectionRelease tt;
                Event (AxiosRequest GET "https://www.strava.com/api/v3/athlete"
                         None "Bearer A2") (inr athlete);
                Event (ResJson 200 athlete) tt] |}, inr tt) /\
  now0 + 1000 <= 1000 * 1700003600 - 60000 /\
  exists rest,
    trace (fst (run env_soon (ensureAccessToken config0 parse0 req0 next0)
                  (world_of [{| id := 1; access_token := Some "A2";
                                refresh_token := Some "R2";
                                expires_at := CNum 1700003600 |}]))) =
    ([Event (PoolGetConnection SelectAuth) None;
      Event (ConnectionQuery SelectAuth)
        (inr (RowData [{| id := 1; access_token := Some "A2";
                          refresh_token := Some "R2";
                          expires_at := CNum 1700003600 |}]));
      Event ConnectionRelease tt;
      Event DateNow (now0 + 1000);
      Event (AxiosPostToken token_url (refresh_request config0))
        (inr (Some response3))] ++ rest)%list.
Proof.
  destruct (refreshed_seconds_record_is_refreshed_again config0 parse0 req0
              (handler GetAthlete) (env_ok response_seconds)
              (world_of [stale_row]) stale_row response_seconds 1700003600
              (conj eq_refl eq_refl) eq_refl eq_refl eq_refl
              (conj eq_refl eq_refl) eq_refl
              ltac:(unfold epoch_seconds; lia))
    as [[[p b a] [Ha [Hp [Hb Hrun]]]] [_ Hnext]].
  cbn in Ha, Hp, Hb. subst a p b.
  split; [exact (eq_trans Hrun eq_refl) |].
  split; [vm_compute; discriminate |].
  exact (Hnext req0 next0 env_soon
           (world_of [{| id := 1; access_token := Some "A2";
                         refresh_token := Some "R2";
                         expires_at := CNum 1700003600 |}])
           eq_refl (conj eq_refl eq_refl)
           ltac:(unfold present_day; cbn; unfold now0; lia)
           ltac:(vm_compute; discriminate)).
Defined.

Lemma epoch_seconds_expiry_always_refreshes_witness :
  expired_or_soon parse0 now0 (CNum (now0 + 3600000)) = false /\
  expired_or_soon parse0 (now0 + 3540000) (CNum (now0 + 3600000)) = false /\
  expired_or_soon parse0 (now0 + 3540001) (CNum (now0 + 3600000)) = true /\
  expired_or_soon parse0 now0 (CNum 1700003600) = true /\
  exists rest,
    trace (fst (run (env_ok response2)
                  (ensureAccessToken config0 parse0 req0 next0)
                  (world_of [seconds_row]))) =
    ([Event (PoolGetConnection SelectAuth) None;
      Event (ConnectionQuery SelectAuth) (inr (RowData [seconds_row]));
      Event ConnectionRelease tt;
      Event DateNow now0;
      Event (AxiosPostToken token_url (refresh_request config0))
        (inr (Some response2))] ++ rest)%list.
Proof.
  destruct (epoch_seconds_expiry_always_refreshes config0 parse0 req0 next0
              (env_ok response2) (world_of [seconds_row]) seconds_row
              1700003600
              (conj eq_refl eq_refl) eq_refl eq_refl
              ltac:(unfold epoch_seconds; lia)
              ltac:(unfold present_day; cbn; unfold now0; lia))
    as [_ [Hnum [_ [_ [H5 H6]]]]].
  split; [| split; [| split; [| split]]].
  - exact (eq_trans
             (proj2 (Hnum now0 (now0 + 3600000)
                       ltac:(vm_compute; discriminate)))
             eq_refl).
  - exact (eq_trans
             (proj2 (Hnum (now0 + 3540000) (now0 + 3600000)
                       ltac:(vm_compute; discriminate)))
             eq_refl).
  - exact (eq_trans
             (proj2 (Hnum (now0 + 3540001) (now0 + 3600000)
                       ltac:(vm_compute; discriminate)))
             eq_refl).
  - exact H5.
  - exact H6.
Defined.

Lemma failed_write_withholds_new_token_witness :
  snd (run env_write_refused (authenticateWithStrava config0)
         (world_of [stale_row])) = inl (QueryError "ER_LOCK_DEADLOCK") /\
  run env_write_refused (ensureAccessToken config0 parse0 req0 next0)
    (world_of [stale_row]) =
  ({| table := [stale_row];
      trace := [Event (PoolGetConnection SelectAuth) None;
                Event (ConnectionQuery SelectAuth) (inr (RowData [stale_row]));
                Event ConnectionRelease tt;
                Event DateNow now0;
                Event (AxiosPostToken token_url (refresh_request config0))
                  (inr (Some response2));
                Event (PoolGetConnection (write_of response2)) None;
                Event (ConnectionQuery (write_of response2))
                  (inl (QueryError "ER_LOCK_DEADLOCK"));
                Event ConnectionRelease tt;
                auth_log (QueryError "ER_LOCK_DEADLOCK");
                Event (ResJson 500 internal_server_error) tt] |}, inr tt).
Proof.
  exact (failed_write_withholds_new_token config0 parse0 req0 next0
           env_write_refused (world_of [stale_row]) stale_row response2
           (QueryError "ER_LOCK_DEADLOCK")
           [Event (PoolGetConnection (write_of response2)) None;
            Event (ConnectionQuery (write_of response2))
              (inl (QueryError "ER_LOCK_DEADLOCK"));
            Event ConnectionRelease tt]
           (conj eq_refl eq_refl) eq_refl eq_refl eq_refl
           (or_intror (conj eq_refl (conj eq_refl eq_refl)))).
Defined.

Lemma missing_record_is_an_ordinary_failure_witness :
  run (env_ok response2) (executeQuery SelectAuth) (world_of []) =
  ({| table := [];
      trace := [Event (PoolGetConnection SelectAuth) None;
                Event (ConnectionQuery SelectAuth) (inr (RowData []));
                Event ConnectionRelease tt] |}, inr (RowData [])) /\
  run (env_ok response2) (ensureAccessToken config0 parse0 req0 next0)
    (world_of []) =
  ({| table := [];
      trace := [Event (PoolGetConnection SelectAuth) None;
                Event (ConnectionQuery SelectAuth) (inr (RowData []));
                Event ConnectionRelease tt;
                Event (ResJson 500 internal_server_error) tt] |}, inr tt) /\
  run env_store_down (ensureAccessToken config0 parse0 req0 next0)
    (world_of []) =
  ({| table := [];
      trace := [Event (PoolGetConnection SelectAuth)
                  (Some (PoolError "ECONNREFUSED"));
                Event (ResJson 500 internal_server_error) tt] |}, inr tt).
Proof.
  destruct (missing_record_is_an_ordinary_failure config0 parse0 req0 next0
              (env_ok response2) (world_of [])
              (conj eq_refl eq_refl) eq_refl)
    as [H1 [H2 H3]].
  split; [exact H1 |]. split; [exact H2 |].
  exact (proj2 (H3 env_store_down (PoolError "ECONNREFUSED")
                  [Event (PoolGetConnection SelectAuth)
                     (Some (PoolError "ECONNREFUSED"))]
                  (or_introl (conj eq_refl eq_refl)))).
Defined.

Lemma body_routes_are_never_forwarded_witness :
  exists evs,
    trace (fst (run (env_ok response2) (app config0 parse0 put_request)
                  (world_of [fresh_row]))) = evs /\
    api_requests evs = [] /\
    responses evs = [(500, internal_server_error)].
Proof.
  exact (body_routes_are_never_forwarded config0 parse0 put_request
           (env_ok response2) (world_of [fresh_row]) eq_refl).
Defined.

Lemma concurrent_callers_each_refresh_witness :
  let final :=
    run_schedule (lockstep 2 6)
      [new_task (app config0 parse0 athlete_request) (env_ok response2);
       new_task (app config0 parse0 athlete_request) (env_ok response3)]
      [stale_row] in
  map (fun t => token_posts (t_trace t)) (fst final) =
  [[refresh_request config0]; [refresh_request config0]] /\
  List.length (flat_map (fun t => token_posts (t_trace t)) (fst final)) =
  2%nat.
Proof.
  assert (H : Forall (fun ed => refreshing config0 parse0 stale_row
                                  (fst ed) (snd ed))
                [(env_ok response2, response2); (env_ok response3, response3)]).
  { repeat constructor. }
  destruct (concurrent_callers_each_refresh config0 parse0 stale_row
              [stale_row]
              [(env_ok response2, response2); (env_ok response3, response3)]
              eq_refl H)
    as [H1 [H2 _]].
  exact (conj H1 H2).
Defined.

(** C3, as stated, fails.  Two requests for GET /athlete in flight together
    against an expired record: two refresh calls are issued, not one, and
    the two requests go on with different access tokens ([A2] and [A3]),
    while the table keeps only the triple written last. *)
Lemma two_callers_two_refreshes :
  let final :=
    run_schedule (lockstep 2 6)
      [new_task (app config0 parse0 athlete_request) (env_ok response2);
       new_task (app config0 parse0 athlete_request) (env_ok response3)]
      [stale_row] in
  List.length (flat_map (fun t => token_posts (t_trace t)) (fst final)) =
  2%nat /\
  map (fun t => map snd (api_requests (t_trace t))) (fst final) =
  [["Bearer A2"]; ["Bearer A3"]] /\
  map access_token (snd final) = [Some "A3"].
Proof. vm_compute. repeat split. Qed.

(** C8, as stated, fails.  With no record in the table the read does not
    fail at all: [executeQuery] resolves, with an empty result. *)
Lemma read_without_record_succeeds :
  stored [] = None /\
  snd (run (env_ok response2) (executeQuery SelectAuth) (world_of [])) =
  inr (RowData []).
Proof. split; reflexivity. Qed.

(** ** Beyond the token lifecycle, at concrete inputs *)

Lemma get_routes_forward_witness :
  run env_comments (app config0 parse0 comments_request)
    (world_of [fresh_row]) =
  ({| table := [fresh_row];
      trace := [Event (PoolGetConnection SelectAuth) None;
                Event (ConnectionQuery SelectAuth) (inr (RowData [fresh_row]));
                Event ConnectionRelease tt;
                Event DateNow now0;
                Event (AxiosRequest GET
                         "https://www.strava.com/api/v3/activities/42/comments"
                         None "Bearer A1") (inr comments);
                Event (ResJson 200 comments) tt] |}, inr tt).
Proof.
  exact (get_routes_forward config0 parse0 comments_request env_comments
           (world_of [fresh_row]) fresh_row (now0 + 3600000) comments
           eq_refl (conj eq_refl eq_refl) eq_refl eq_refl
           ltac:(vm_compute; discriminate) eq_refl).
Defined.

Lemma refreshed_get_routes_forward_witness :
  run env_comments (app config0 parse0 comments_request)
    (world_of [stale_row]) =
  ({| table := [{| id := 1; access_token := Some "A2"; refresh_token := Some "R2";
                   expires_at := CNum (now0 + 3600000) |}];
      trace := [Event (PoolGetConnection SelectAuth) None;
                Event (ConnectionQuery SelectAuth) (inr (RowData [stale_row]));
                Event ConnectionRelease tt;
                Event DateNow now0;
                Event (AxiosPostToken token_url (refresh_request config0))
                  (inr (Some response2));
                Event (PoolGetConnection (write_of response2)) None;
                Event (ConnectionQuery (write_of response2))
                  (inr (OkPacket 1));
                Event ConnectionRelease tt;
                Event (AxiosRequest GET
                         "https://www.strava.com/api/v3/activities/42/comments"
                         None "Bearer A2") (inr comments);
                Event (ResJson 200 comments) tt] |}, inr tt).
Proof.
  exact (refreshed_get_routes_forward config0 parse0 comments_request
           env_comments (world_of [stale_row]) stale_row response2 comments
           eq_refl (conj eq_refl eq_refl) eq_refl eq_refl eq_refl
           (conj eq_refl eq_refl) eq_refl).
Defined.

Lemma undated_token_is_never_refreshed_witness :
  run env_later (ensureAccessToken config0 parse0 req0 (handler GetAthlete))
    (world_of [undated_row]) =
  ({| table := [undated_row];
      trace := [Event (PoolGetConnection SelectAuth) None;
                Event (ConnectionQuery SelectAuth)
                  (inr (RowData [undated_row]));
                Event ConnectionRelease tt;
                Event DateNow (now0 + 3600000);
                Event (AxiosRequest GET "https://www.strava.com/api/v3/athlete"
                         None "Bearer A1") (inr athlete);
                Event (ResJson 200 athlete) tt] |}, inr tt).
Proof.
  destruct (undated_token_is_never_refreshed config0 parse0 req0
              (handler GetAthlete) env_later (world_of [undated_row])
              undated_row (conj eq_refl eq_refl) eq_refl eq_refl)
    as [[p b a] [Ha [Hp [Hb Hrun]]]].
  cbn in Ha, Hp, Hb. subst a p b.
  exact (eq_trans Hrun eq_refl).
Defined.

Lemma null_expiry_always_refreshes_witness :
  exists rest,
    trace (fst (run (env_ok response2)
                  (ensureAccessToken config0 parse0 req0 next0)
                  (world_of [null_row]))) =
    ([Event (PoolGetConnection SelectAuth) None;
      Event (ConnectionQuery SelectAuth) (inr (RowData [null_row]));
      Event ConnectionRelease tt;
      Event DateNow now0;
      Event (AxiosPostToken token_url (refresh_request config0))
        (inr (Some response2))] ++ rest)%list.
Proof.
  exact (null_expiry_always_refreshes config0 parse0 req0 next0
           (env_ok response2) (world_of [null_row]) null_row
           (conj eq_refl eq_refl) eq_refl eq_refl
           ltac:(vm_compute; discriminate)).
Defined.

Lemma staleness_does_not_heal_witness :
  exists rest,
    trace (fst (run env_later (ensureAccessToken config0 parse0 req0 next0)
                  (world_of [stale_row]))) =
    ([Event (PoolGetConnection SelectAuth) None;
      Event (ConnectionQuery SelectAuth) (inr (RowData [stale_row]));
      Event ConnectionRelease tt;
      Event DateNow (now0 + 3600000);
      Event (AxiosPostToken token_url (refresh_request config0))
        (inr (Some response3))] ++ rest)%list.
Proof.
  exact (staleness_does_not_heal config0 parse0 req0 next0 env_later
           (world_of [stale_row]) stale_row now0
           (conj eq_refl eq_refl) eq_refl eq_refl
           ltac:(vm_compute; discriminate)).
Defined.

Lemma failed_read_is_not_logged_witness :
  exists evs,
    run env_read_refused
      (ensureAccessToken config0 parse0 req0 (handler GetAthlete))
      (world_of [fresh_row]) =
    ({| table := [fresh_row]; trace := evs |}, inr tt) /\
    logged evs = [] /\
    responses evs = [(500, internal_server_error)] /\
    token_posts evs = [] /\
    api_requests evs = [].
Proof.
  exact (failed_read_is_not_logged config0 parse0 GetAthlete req0
           env_read_refused (world_of [fresh_row])
           (or_introl
              (ex_intro _ (QueryError "ER_NO_SUCH_TABLE")
                 (ex_intro _
                    [Event (PoolGetConnection SelectAuth) None;
                     Event (ConnectionQuery SelectAuth)
                       (inl (QueryError "ER_NO_SUCH_TABLE"));
                     Event ConnectionRelease tt]
                    (or_intror (conj eq_refl (conj eq_refl eq_refl))))))).
Defined.

Lemma last_write_wins_witness :
  stored (snd (run_schedule (lockstep 2 6)
                 [new_task (app config0 parse0 athlete_request)
                    (env_ok response2);
                  new_task (app config0 parse0 athlete_request)
                    (env_ok response3)]
                 [stale_row])) =
  Some {| id := 1; access_token := Some "A3"; refresh_token := Some "R3";
          expires_at := CNum (now0 + 3600000) |}.
Proof.
  assert (H : Forall (fun ed => refreshing config0 parse0 stale_row
                                  (fst ed) (snd ed))
                ([(env_ok response2, response2)]
                 ++ [(env_ok response3, response3)])).
  { repeat constructor. }
  exact (last_write_wins config0 parse0 stale_row [stale_row]
           [(env_ok response2, response2)] (env_ok response3) response3
           eq_refl H).
Defined.

Lemma answer_without_token_is_forwarded_witness :
  (exists hev,
      run (env_ok response_no_token) (app config0 parse0 athlete_request)
        (world_of [stale_row]) =
      ({| table := [{| id := 1; access_token := None;
                       refresh_token := Some "R2";
                       expires_at := CNum (now0 + 3600000) |}];
          trace := ([Event (PoolGetConnection SelectAuth) None;
                     Event (ConnectionQuery SelectAuth)
                       (inr (RowData [stale_row]));
                     Event ConnectionRelease tt;
                     Event DateNow now0;
                     Event (AxiosPostToken token_url (refresh_request config0))
                       (inr (Some response_no_token));
                     Event (PoolGetConnection (write_of response_no_token))
                       None;
                     Event (ConnectionQuery (write_of response_no_token))
                       (inr (OkPacket 1));
                     Event ConnectionRelease tt] ++ hev)%list |}, inr tt) /\
      api_requests hev =
      [(GET, "https://www.strava.com/api/v3/athlete", None,
        "Bearer undefined")]) /\
  exists hev,
    run env_comments (app config0 parse0 comments_request)
      (world_of [{| id := 1; access_token := None;
                    refresh_token := Some "R2";
                    expires_at := CNum (now0 + 3600000) |}]) =
    ({| table := [{| id := 1; access_token := None;
                     refresh_token := Some "R2";
                     expires_at := CNum (now0 + 3600000) |}];
        trace := ([Event (PoolGetConnection SelectAuth) None;
                   Event (ConnectionQuery SelectAuth)
                     (inr (RowData
                             [{| id := 1; access_token := None;
                                 refresh_token := Some "R2";
                                 expires_at := CNum (now0 + 3600000) |}]));
                   Event ConnectionRelease tt;
                   Event DateNow now0] ++ hev)%list |}, inr tt) /\
    api_requests hev =
    [(GET, "https://www.strava.com/api/v3/activities/42/comments", None,
      "Bearer null")].
Proof.
  destruct (answer_without_token_is_forwarded config0 parse0 athlete_request
              (env_ok response_no_token) (world_of [stale_row]) stale_row
              response_no_token
              eq_refl (conj eq_refl eq_refl) eq_refl eq_refl eq_refl eq_refl
              (conj eq_refl eq_refl))
    as [Hfirst [_ Hnext]].
  split; [exact Hfirst |].
  exact (Hnext comments_request env_comments
           (world_of [{| id := 1; access_token := None;
                         refresh_token := Some "R2";
                         expires_at := CNum (now0 + 3600000) |}])
           (now0 + 3600000)
           eq_refl eq_refl (conj eq_refl eq_refl) eq_refl
           ltac:(vm_compute; discriminate)).
Defined.

Lemma answer_without_data_is_a_failure_witness :
  run env_no_data (ensureAccessToken config0 parse0 req0 (handler GetAthlete))
    (world_of [stale_row]) =
  ({| table := [stale_row];
      trace := [Event (PoolGetConnection SelectAuth) None;
                Event (ConnectionQuery SelectAuth) (inr (RowData [stale_row]));
                Event ConnectionRelease tt;
                Event DateNow now0;
                Event (AxiosPostToken token_url (refresh_request config0))
                  (inr None);
                Event (ConsoleError "Error authenticating with Strava:"
                         (TypeError
                            "Cannot destructure property 'access_token'")) tt;
                Event (ResJson 500 internal_server_error) tt] |}, inr tt).
Proof.
  exact (proj2 (answer_without_data_is_a_failure config0 parse0 req0
                  (handler GetAthlete) env_no_data (world_of [stale_row])
                  stale_row (conj eq_refl eq_refl) eq_refl eq_refl eq_refl)).
Defined.
